(** * Place discovery and enrichment layer of newBuzo

    A shallow embedding of [src/lib/googleMaps.ts] (the Google Maps service
    layer) and of the [useLocationSearch] hook that calls it, followed by
    the properties of the specification, each proved or refuted on the
    embedding.

    Conventions of the embedding:
    - a JavaScript [number] is an IEEE 754 binary64 value, Rocq's primitive
      [float]; arithmetic and comparisons are the primitive operations;
    - a JavaScript string is a [string] whose characters are the code units
      0..255;
    - an optional or possibly [undefined] property is an [option];
    - a promise is its outcome, [Resolved], [Rejected] or, when it never
      settles, [Pending], computed in a monad that threads the module's state
      (the memoized map instance), the script of the SDK in the document, and
      the trace of provider calls and console warnings. *)

From Stdlib Require Import ZArith List String Ascii Bool Lia.
From Stdlib Require Import DecimalString.
From Stdlib Require Import Floats.
Import ListNotations.

Set Warnings "-inexact-float".

Local Open Scope list_scope.
Local Open Scope string_scope.

(** ** JavaScript values *)

Module JS.

(** [x || y] on numbers: [NaN], [+0] and [-0] are falsy. *)
Definition truthy_num (x : float) : bool :=
  negb (PrimFloat.is_nan x || PrimFloat.is_zero x).

Definition truthy_onum (x : option float) : bool :=
  match x with
  | Some v => truthy_num v
  | None => false
  end.

(** [x || d] where [x] is a number or [undefined] and [d] a number. *)
Definition num_or (x : option float) (d : float) : float :=
  match x with
  | Some v => if truthy_num v then v else d
  | None => d
  end.

(** [x || y] where both may be [undefined]. *)
Definition onum_or (x y : option float) : option float :=
  if truthy_onum x then x else y.

(** The empty string is falsy. *)
Definition truthy_str (s : string) : bool :=
  negb (String.eqb s "").

Definition truthy_ostr (x : option string) : bool :=
  match x with
  | Some s => truthy_str s
  | None => false
  end.

Definition str_or (x : option string) (d : string) : string :=
  match x with
  | Some s => if truthy_str s then s else d
  | None => d
  end.

Definition ostr_or (x y : option string) : option string :=
  if truthy_ostr x then x else y.

(** White space and line terminators among the code units 0..255:
    TAB, LF, VT, FF, CR, SP and NBSP. *)
Definition is_space (c : ascii) : bool :=
  let n := nat_of_ascii c in
  ((9 <=? n) && (n <=? 13) || (n =? 32) || (n =? 160))%nat.

Fixpoint trimStart (s : string) : string :=
  match s with
  | String c r => if is_space c then trimStart r else s
  | EmptyString => EmptyString
  end.

(** [trimEnd]: a trailing run of white space is dropped. *)
Fixpoint trimEnd (s : string) : string :=
  match s with
  | String c r =>
      match trimEnd r with
      | EmptyString => if is_space c then EmptyString else String c EmptyString
      | r' => String c r'
      end
  | EmptyString => EmptyString
  end.

(** [String.prototype.trim]. *)
Definition trim (s : string) : string := trimEnd (trimStart s).

(** [String.prototype.startsWith]. *)
Definition startsWith (s p : string) : bool := String.prefix p s.

(** [typeof x === 'string' && x.trim().length > 0] for a string or
    [undefined] property. *)
Definition usable (x : option string) : bool :=
  match x with
  | Some s => (0 <? String.length (trim s))%nat
  | None => false
  end.

(** Decimal digits of a natural number, ["0"] for zero. *)
Definition digits (n : N) : string :=
  NilZero.string_of_uint (N.to_uint n).

Fixpoint zeros (k : nat) : string :=
  match k with
  | O => ""
  | S k' => String "0" (zeros k')
  end.

(** The integer [n] for which [n / 10^f - m * 2^e] is as close to zero as
    possible, the larger one when there are two. *)
Definition scaled_round (f : nat) (m : positive) (e : Z) : N :=
  let num := (Z.pos m * 10 ^ Z.of_nat f)%Z in
  match e with
  | Zneg p => Z.to_N ((2 * num + 2 ^ Z.pos p) / (2 * 2 ^ Z.pos p))
  | _ => Z.to_N (num * 2 ^ e)
  end.

(** The digits of [n] with a decimal point before the last [f] of them,
    padded with zeros on the left to [f + 1] digits. *)
Definition place_point (f : nat) (n : N) : string :=
  let m := digits n in
  let k := String.length m in
  let m := if (k <=? f)%nat then zeros (f + 1 - k) ++ m else m in
  let k := String.length m in
  if (f =? 0)%nat then m
  else substring 0 (k - f) m ++ "." ++ substring (k - f) f m.

(** Is [m * 2^e >= 10^21]? *)
Definition ge_1e21 (m : positive) (e : Z) : bool :=
  match e with
  | Zneg p => (10 ^ 21 * 2 ^ Z.pos p <=? Z.pos m)%Z
  | _ => (10 ^ 21 <=? Z.pos m * 2 ^ e)%Z
  end.

Section ToFixed.
  (** [Number::toString], used by [toFixed] from [10^21] on; the algorithm
      (shortest digits that read back) is the engine's. *)
Variable Number_toString : float -> string.

  (** [Number.prototype.toFixed(f)] for [0 <= f <= 100]. *)
Definition toFixed (x : float) (f : nat) : string :=
    match Prim2SF x with
    | S754_nan => "NaN"
    | S754_infinity false => "Infinity"
    | S754_infinity true => "-Infinity"
    | S754_zero _ => place_point f 0
    | S754_finite s m e =>
        (if s then "-" else "") ++
        (if ge_1e21 m e then Number_toString (PrimFloat.abs x)
         else place_point f (scaled_round f m e))
    end.
End ToFixed.

End JS.

(** ** Promises, exceptions and effects *)

(** What a [throw] carries: an [Error] instance with its message, or any
    other value. *)
Inductive Exn :=
  | Error (message : string)
  | Thrown (value : string).

(** A [TypeError] is an [Error]; reading [prop] off [undefined]. *)
Definition TypeError (prop : string) : Exn :=
  Error ("Cannot read properties of undefined (reading '" ++ prop ++ "')").

Record LatLng := { lat : float; lng : float }.

(** The calls that reach the provider, and the warnings written to the
    console, in the order they happen. ([console.log] debugging output is not
    recorded.) *)
Inductive Event :=
  | CreateMap
  | PlaceSearchNearby (center : LatLng) (radius : float) (includedTypes : list string)
  | NearbySearch (location : LatLng) (radius : float) (type : string)
  | PlaceSearchByText (textQuery : string)
  | TextSearch (query : string)
  | PlaceFetchFields (placeId : option string)
  | GetDetails (placeId : option string)
  | Geocode (address : string)
  | ReverseGeocode (location : LatLng)
  | ConsoleWarn (text : string) (error : Exn).

(** The module-level state ([mapInstance] and [placesService] are created
    together, once), whether a script of the SDK is in the document
    ([document.querySelector('script[src*="maps.googleapis.com"]')]), and
    the trace. *)
Record Store := {
  mapInstance : bool;
  scriptTag : bool;
  trace : list Event
}.

(** How a promise ends: it is fulfilled, it is rejected, or it never
    settles. *)
Inductive Outcome (A : Type) :=
  | Resolved (value : A)
  | Rejected (reason : Exn)
  | Pending.
Arguments Resolved {A} value.
Arguments Rejected {A} reason.
Arguments Pending {A}.

(** An [async] function: from the store before to its outcome and the store
    after. What happened before a [throw], or before an [await] that never
    resumes, stays in the store. *)
Definition Async (A : Type) : Type := Store -> Outcome A * Store.

Definition ret {A} (a : A) : Async A := fun s => (Resolved a, s).

Definition throw {A} (e : Exn) : Async A := fun s => (Rejected e, s).

Definition bind {A B} (m : Async A) (k : A -> Async B) : Async B :=
  fun s =>
    match m s with
    | (Resolved a, s') => k a s'
    | (Rejected e, s') => (Rejected e, s')
    | (Pending, s') => (Pending, s')
    end.

(** [try { m } catch (error) { h error }]. *)
Definition try_catch {A} (m : Async A) (h : Exn -> Async A) : Async A :=
  fun s =>
    match m s with
    | (Resolved a, s') => (Resolved a, s')
    | (Rejected e, s') => h e s'
    | (Pending, s') => (Pending, s')
    end.

Definition emit (ev : Event) : Async unit :=
  fun s =>
    (Resolved tt,
     {| mapInstance := mapInstance s; scriptTag := scriptTag s;
        trace := trace s ++ [ev] |}).

(** The value of a call that may throw. *)
Definition settle {A} (r : Exn + A) : Async A :=
  match r with
  | inl e => throw e
  | inr a => ret a
  end.

Declare Scope async_scope.
Delimit Scope async_scope with async.
Notation "x <- m ;; k" := (bind m (fun x => k))
  (at level 61, m at next level, right associativity) : async_scope.
Notation "m ;; k" := (bind m (fun _ => k))
  (at level 61, right associativity) : async_scope.
Local Open Scope async_scope.

(** Runs an [async] body down to matches on the stores and outcomes. *)
Ltac unfold_async := unfold settle, bind, try_catch, ret, emit, throw.

(** [Array.prototype.map] with a callback that may throw: the first throw
    ends the traversal. *)
Fixpoint map_throwing {A B} (f : A -> Exn + B) (l : list A) : Exn + list B :=
  match l with
  | [] => inr []
  | a :: l' =>
      match f a with
      | inl e => inl e
      | inr b =>
          match map_throwing f l' with
          | inl e => inl e
          | inr bs => inr (b :: bs)
          end
      end
  end.

(** ** The runtime outside the repository *)

(** [Math], [Number], [URL] and the build-time environment. *)
Class Runtime := {
  Math_sin : float -> float;
  Math_cos : float -> float;
  Math_atan2 : float -> float -> float;
  (** [Number::toString] *)
  Number_toString : float -> string;
  (** [new URL(base)], one [searchParams.append] per pair, [toString()] *)
  URL_href : string -> list (string * string) -> string;
  (** [import.meta.env.VITE_GOOGLE_MAPS_API_KEY] *)
  GOOGLE_MAPS_API_KEY : option string
}.

Definition Math_PI : float := 3.141592653589793%float.

Definition GOOGLE_PLACES_BASE_URL : string :=
  "https://maps.googleapis.com/maps/api/place".

(** ** The application's records ([@/types]) *)

Record PhotoAttribution := {
  displayName : option string;
  uri : option string;
  photoUri : option string
}.

(** The value of [cuisineMap[type]]: a label of the table, or a member the
    object literal inherits from [Object.prototype]. *)
Inductive PropertyValue :=
  | Label (label : string)
  | Inherited (key : string).

Module Restaurant.
Record t := {
    id : option string;
    name : string;
    rating : float;
    address : string;
    coordinates : LatLng;
    cuisine : PropertyValue;
    priceLevel : float;
    image : string;
    distance : float;
    photoAttributions : list PhotoAttribution
  }.

  (** [{ ...restaurant, image: url }] *)
Definition with_image (r : t) (url : string) : t :=
    {| id := id r; name := name r; rating := rating r; address := address r;
       coordinates := coordinates r; cuisine := cuisine r;
       priceLevel := priceLevel r; image := url; distance := distance r;
       photoAttributions := photoAttributions r |}.
End Restaurant.

Module UserLocation.
Record t := { lat : float; lng : float; address : option string }.
End UserLocation.

(** A photo object. The legacy shape and [RestaurantDetails] carry
    [photo_reference], [width] and [height]; the new shape carries [name],
    [widthPx], [heightPx] and [authorAttributions]; [RestaurantDetails] adds
    [attributions]. A property an object lacks is [None]. *)
Module Photo.
Record t := {
    photo_reference : option string;
    name : option string;
    width : option float;
    height : option float;
    widthPx : option float;
    heightPx : option float;
    authorAttributions : option (list PhotoAttribution);
    attributions : option (list PhotoAttribution)
  }.
End Photo.

Module OpeningHours.
Record t := { open_now : bool; weekday_text : option (list string) }.
End OpeningHours.

Module RestaurantDetails.
Record t := {
    place_id : option string;
    name : string;
    formatted_address : string;
    formatted_phone_number : option string;
    website : option string;
    rating : float;
    photos : option (list Photo.t);
    opening_hours : option OpeningHours.t;
    location : LatLng
  }.
End RestaurantDetails.

Module LocationSearchResult.
Record t := {
    place_id : option string;
    name : string;
    formatted_address : string;
    location : LatLng;
    types : list string
  }.
End LocationSearchResult.

(** ** The provider's objects *)

(** [GooglePlaceResult], the legacy response shape. *)
Module GooglePlaceResult.
Record t := {
    place_id : string;
    name : string;
    vicinity : option string;
    formatted_address : option string;
    location : LatLng;
    rating : option float;
    price_level : option float;
    types : list string;
    photos : option (list Photo.t);
    opening_hours : option OpeningHours.t;
    formatted_phone_number : option string;
    website : option string
  }.
End GooglePlaceResult.

(** A place of the new response shape ([place: any]): every property is
    probed at run time. [Dg_displayName] is [place.Dg.displayName] ([None]
    when [place.Dg] is missing, [Some None] when it has no string
    [displayName]); [displayName_text] likewise for [place.displayName.text];
    [location] is the object whose [lat()] and [lng()] are called. *)
Module Place.
Record t := {
    Dg_displayName : option (option string);
    displayName_text : option (option string);
    name : option string;
    title : option string;
    place_id : option string;
    id : option string;
    rating : option float;
    formattedAddress : option string;
    vicinity : option string;
    location : option LatLng;
    types : option (list string);
    priceLevel : option float;
    photos : option (list Photo.t)
  }.
End Place.

(** The place object after [fetchFields()]: its [Dg] record ([None] when
    missing) and the identifiers beside it. In [Dg], [location] is [None]
    when missing and holds [None] for an accessor that is missing. *)
Module PlaceDg.
Record t := {
    id : option string;
    displayName : option string;
    formattedAddress : option string;
    nationalPhoneNumber : option string;
    websiteUri : option string;
    websiteURI : option string;
    rating : option float;
    photos : option (list Photo.t);
    currentOpeningHours : option OpeningHours.t;
    location : option (option float * option float)
  }.

  (** [{}] *)
Definition empty : t :=
    {| id := None; displayName := None; formattedAddress := None;
       nationalPhoneNumber := None; websiteUri := None; websiteURI := None;
       rating := None; photos := None; currentOpeningHours := None;
       location := None |}.
End PlaceDg.

Module FetchedPlace.
Record t := {
    Dg : option PlaceDg.t;
    place_id : option string;
    id : option string
  }.
End FetchedPlace.

Module GeocoderResult.
Record t := {
    place_id : option string;
    (** [address_components[0]?.long_name] *)
    first_long_name : option string;
    formatted_address : string;
    location : LatLng;
    types : option (list string)
  }.
End GeocoderResult.

(** What becomes of a script of the SDK that the document loads: the page's
    callback [initGoogleMaps], which is not under [src/], sets
    [window.googleMapsLoaded] and dispatches ['google-maps-loaded'], with
    [window.google] in place; or the [error] event of the script fires; or
    neither ever happens. *)
Inductive ScriptLoad := Arrives | Errors | Silent.

(** The page and [window.google]. [loaded] is
    [window.googleMapsLoaded && window.google] as the page has it without
    this module; [scriptLoad] is what becomes of a script of the SDK. An
    entry point of the new shape is [None] when [places.Place] or the method
    is missing; a search of the new shape gives the [places] property of its
    response, and any call of the new shape throws (rejects) with [inl]. A
    legacy entry point hands [(results, status)] to its callback, once. The
    provider answers every request: only the load of the SDK may never
    end. *)
Record GoogleSDK := {
  loaded : bool;
  scriptLoad : ScriptLoad;
  Place_searchNearby : option (LatLng -> float -> Exn + option (list Place.t));
  Place_searchByText :
    option (string -> option (LatLng * float) -> Exn + option (list Place.t));
  Place_fetchFields : option (option string -> Exn + FetchedPlace.t);
  nearbySearch : LatLng -> float -> string -> list GooglePlaceResult.t * string;
  textSearch :
    string -> option (LatLng * option float) -> list GooglePlaceResult.t * string;
  getDetails : option string -> GooglePlaceResult.t * string;
  geocode_address : string -> option (list GeocoderResult.t) * string;
  geocode_location : LatLng -> list GeocoderResult.t * string
}.

(** [PlacesServiceStatus] and [GeocoderStatus]. *)
Definition Status_OK : string := "OK".
Definition Status_ZERO_RESULTS : string := "ZERO_RESULTS".

(** ** Distance and classification utilities *)

Section Service.
Context {RT : Runtime}.
Local Open Scope float_scope.

(** Haversine formula. *)
Definition calculateDistance (lat1 lng1 lat2 lng2 : float) : float :=
  let R := 6371 in
  let dLat := (lat2 - lat1) * (Math_PI / 180) in
  let dLng := (lng2 - lng1) * (Math_PI / 180) in
  let a :=
    Math_sin (dLat / 2) * Math_sin (dLat / 2) +
    Math_cos (lat1 * (Math_PI / 180)) * Math_cos (lat2 * (Math_PI / 180)) *
    Math_sin (dLng / 2) * Math_sin (dLng / 2) in
  let c := 2 * Math_atan2 (PrimFloat.sqrt a) (PrimFloat.sqrt (1 - a)) in
  R * c.

(** The own properties of the [cuisineMap] literal, in source order. *)
Definition cuisineMap : list (string * string) :=
  [ ("restaurant", "Restaurant");
    ("food", "Food");
    ("meal_takeaway", "Takeaway");
    ("meal_delivery", "Delivery");
    ("cafe", "Cafe");
    ("bar", "Bar");
    ("bakery", "Bakery");
    ("chinese_restaurant", "Chinese");
    ("japanese_restaurant", "Japanese");
    ("thai_restaurant", "Thai");
    ("italian_restaurant", "Italian");
    ("mexican_restaurant", "Mexican");
    ("indian_restaurant", "Indian");
    ("french_restaurant", "French");
    ("american_restaurant", "American");
    ("steakhouse", "Steakhouse") ].

(** The string-keyed members of [Object.prototype], which every object
    literal inherits; each is a function or an object, hence truthy. *)
Definition Object_prototype_keys : list string :=
  [ "constructor"; "__defineGetter__"; "__defineSetter__"; "hasOwnProperty";
    "__lookupGetter__"; "__lookupSetter__"; "isPrototypeOf";
    "propertyIsEnumerable"; "toString"; "valueOf"; "__proto__";
    "toLocaleString" ].

Fixpoint own_property (key : string) (o : list (string * string)) : option string :=
  match o with
  | [] => None
  | (k, v) :: o' => if String.eqb k key then Some v else own_property key o'
  end.

(** [cuisineMap[type]]; [None] is [undefined]. *)
Definition cuisineMap_get (type : string) : option PropertyValue :=
  match own_property type cuisineMap with
  | Some label => Some (Label label)
  | None =>
      if existsb (String.eqb type) Object_prototype_keys
      then Some (Inherited type) else None
  end.

Definition truthy_property (v : option PropertyValue) : bool :=
  match v with
  | Some (Label label) => JS.truthy_str label
  | Some (Inherited _) => true
  | None => false
  end.

Fixpoint mapCuisineType (types : list string) : PropertyValue :=
  match types with
  | [] => Label "Restaurant"
  | type :: rest =>
      match cuisineMap_get type with
      | Some v => if truthy_property (Some v) then v else mapCuisineType rest
      | None => mapCuisineType rest
      end
  end.

(** ** Photo selection heuristic *)

Definition getPlacePhotoUrl (photoReference : string) (maxWidth maxHeight : float) : string :=
  if negb (JS.truthy_ostr GOOGLE_MAPS_API_KEY) then "/placeholder.svg"
  else
    let key := JS.str_or GOOGLE_MAPS_API_KEY "" in
    if JS.startsWith photoReference "places/" then
      URL_href ("https://places.googleapis.com/v1/" ++ photoReference ++ "/media")
        [ ("maxWidthPx", Number_toString maxWidth);
          ("maxHeightPx", Number_toString maxHeight);
          ("key", key) ]
    else
      URL_href (GOOGLE_PLACES_BASE_URL ++ "/photo")
        [ ("photoreference", photoReference);
          ("maxwidth", Number_toString maxWidth);
          ("maxheight", Number_toString maxHeight);
          ("key", key) ].

(** [photo.width || photo.widthPx || 0] and [photo.height || photo.heightPx || 0] *)
Definition photoWidth (photo : Photo.t) : float :=
  JS.num_or (JS.onum_or (Photo.width photo) (Photo.widthPx photo)) 0.

Definition photoHeight (photo : Photo.t) : float :=
  JS.num_or (JS.onum_or (Photo.height photo) (Photo.heightPx photo)) 0.

Definition photoRatio (photo : Photo.t) : float :=
  photoWidth photo / photoHeight photo.

Definition photoSize (photo : Photo.t) : float :=
  photoWidth photo * photoHeight photo.

(** One iteration of the loop of [getBestRestaurantImage]: the value of
    [bestPhoto] after [photo] has been looked at. *)
Definition scanPhoto (bestPhoto photo : Photo.t) : Photo.t :=
  let currentWidth := photoWidth photo in
  let currentHeight := photoHeight photo in
  let bestWidth := photoWidth bestPhoto in
  let bestHeight := photoHeight bestPhoto in
  if (currentWidth =? 0) || (currentHeight =? 0) then bestPhoto
  else
    let currentRatio := currentWidth / currentHeight in
    let currentSize := currentWidth * currentHeight in
    let bestSize := bestWidth * bestHeight in
    if (1.2 <=? currentRatio) && (currentRatio <=? 2.0) && (bestSize <? currentSize)
    then photo else bestPhoto.

(** The selection scan of [getBestRestaurantImage]: [None] when [photos] is
    missing or empty, else [bestPhoto] after the loop, which starts from
    [photos[0]] and looks at every photo, the first included. *)
Definition selectBestPhoto (photos : option (list Photo.t)) : option Photo.t :=
  match photos with
  | None | Some [] => None
  | Some (first :: rest) => Some (fold_left scanPhoto (first :: rest) first)
  end.

Definition getBestRestaurantImage (photos : option (list Photo.t)) : string :=
  match selectBestPhoto photos with
  | None => "/placeholder.svg"
  | Some bestPhoto =>
      let photoRef := JS.ostr_or (Photo.photo_reference bestPhoto) (Photo.name bestPhoto) in
      if JS.truthy_ostr photoRef
      then getPlacePhotoUrl (JS.str_or photoRef "") 800 600
      else "/placeholder.svg"
  end.

(** ** Provider session manager *)

Variable G : GoogleSDK.

Definition sdkArrives : bool :=
  match scriptLoad G with
  | Arrives => true
  | _ => false
  end.

(** [loadGoogleMapsScript()]. With the SDK not in the page and the key
    there: when a script of the SDK is in the document already, the promise
    only listens for ['google-maps-loaded'], which is dispatched when that
    script arrives and never otherwise; else the script is appended, and the
    promise is fulfilled when it arrives, rejected when it errors, and never
    settled when it does neither. (Once the SDK has arrived through the
    script, a further call passes by the first test in the source, and by the
    third here, fulfilled without an effect in both.) *)
Definition loadGoogleMapsScript : Async unit :=
  fun s =>
    if loaded G then (Resolved tt, s)
    else if negb (JS.truthy_ostr GOOGLE_MAPS_API_KEY)
    then (Rejected (Error "Google Maps API key is required"), s)
    else if scriptTag s
    then (if sdkArrives then Resolved tt else Pending, s)
    else
      (match scriptLoad G with
       | Arrives => Resolved tt
       | Errors => Rejected (Error "Failed to load Google Maps API")
       | Silent => Pending
       end,
       {| mapInstance := mapInstance s; scriptTag := true; trace := trace s |}).

(** [waitForGoogleMaps()]: a rejection of the load fulfils it; it never
    rejects. *)
Definition waitForGoogleMaps : Async unit :=
  fun s =>
    if loaded G then (Resolved tt, s)
    else try_catch loadGoogleMapsScript (fun _ => ret tt) s.

(** [window.google && window.googleMapsLoaded] once the wait is over: the
    page had the SDK, or the script had the key to ask with and arrived. *)
Definition sdkAvailable : bool :=
  loaded G || (JS.truthy_ostr GOOGLE_MAPS_API_KEY && sdkArrives).

(** [initializeGoogleMapsService()]: after the wait, throws when the SDK is
    not there; creates the hidden map and the legacy service on the first
    successful call only. *)
Definition initializeGoogleMapsService : Async unit :=
  waitForGoogleMaps ;;
  fun s =>
    if negb sdkAvailable then (Rejected (Error "Google Maps API failed to load"), s)
    else if mapInstance s then (Resolved tt, s)
    else
      (Resolved tt,
       {| mapInstance := true; scriptTag := scriptTag s;
          trace := trace s ++ [CreateMap] |}).

(** How the initialization ends without the SDK. *)
Definition failedInitialization (s : Store) : Outcome unit * Store :=
  if negb (JS.truthy_ostr GOOGLE_MAPS_API_KEY)
  then (Rejected (Error "Google Maps API failed to load"), s)
  else if scriptTag s then (Pending, s)
  else
    (match scriptLoad G with
     | Errors => Rejected (Error "Google Maps API failed to load")
     | _ => Pending
     end,
     {| mapInstance := mapInstance s; scriptTag := true; trace := trace s |}).

(** ** Dual-shape query adapter *)

Definition center (location : UserLocation.t) : LatLng :=
  {| lat := UserLocation.lat location; lng := UserLocation.lng location |}.

(** [x.y] where [x] may be missing. *)
Definition nested (x : option (option string)) : option string :=
  match x with
  | Some y => y
  | None => None
  end.

(** One arm of the chain of tests on the name: [x] when it is a string that
    is not blank, else what the following arms give. *)
Definition pick (x : option string) (otherwise : string) : string :=
  if JS.usable x then JS.str_or x "" else otherwise.

(** [(photos && photos[0] && photos[0].authorAttributions)
      ? photos[0].authorAttributions : []] *)
Definition firstAuthorAttributions (photos : option (list Photo.t)) : list PhotoAttribution :=
  match photos with
  | Some (photo :: _) =>
      match Photo.authorAttributions photo with
      | Some a => a
      | None => []
      end
  | _ => []
  end.

Definition orEmpty {A} (x : option (list A)) : list A :=
  match x with
  | Some l => l
  | None => []
  end.

(** The callback of [places.map] in the new-shape branch of
    [searchNearbyRestaurants]. Reading [place.location.lat] throws when
    [place.location] is missing. *)
Definition restaurantOfNearbyPlace (location : UserLocation.t) (place : Place.t)
  : Exn + Restaurant.t :=
  let restaurantName :=
    pick (nested (Place.Dg_displayName place))
      (pick (nested (Place.displayName_text place))
         (pick (Place.name place)
            (pick (Place.title place) ""))) in
  match Place.location place with
  | None => inl (TypeError "lat")
  | Some at_ =>
      inr {| Restaurant.id := JS.ostr_or (Place.place_id place) (Place.id place);
             Restaurant.name := JS.str_or (Some restaurantName) "Unknown Restaurant";
             Restaurant.rating := JS.num_or (Place.rating place) 0;
             Restaurant.address :=
               JS.str_or (JS.ostr_or (Place.formattedAddress place) (Place.vicinity place)) "";
             Restaurant.coordinates := {| lat := lat at_; lng := lng at_ |};
             Restaurant.cuisine := mapCuisineType (orEmpty (Place.types place));
             Restaurant.priceLevel := JS.num_or (Place.priceLevel place) 2;
             Restaurant.image := getBestRestaurantImage (Place.photos place);
             Restaurant.distance :=
               calculateDistance (UserLocation.lat location) (UserLocation.lng location)
                 (lat at_) (lng at_);
             Restaurant.photoAttributions := firstAuthorAttributions (Place.photos place) |}
  end.

(** The callback of [results.map] in the legacy branch of
    [searchNearbyRestaurants]. *)
Definition restaurantOfNearbyResult (location : UserLocation.t) (place : GooglePlaceResult.t)
  : Restaurant.t :=
  let at_ := GooglePlaceResult.location place in
  {| Restaurant.id := Some (GooglePlaceResult.place_id place);
     Restaurant.name := GooglePlaceResult.name place;
     Restaurant.rating := JS.num_or (GooglePlaceResult.rating place) 0;
     Restaurant.address := JS.str_or (GooglePlaceResult.vicinity place) "";
     Restaurant.coordinates := {| lat := lat at_; lng := lng at_ |};
     Restaurant.cuisine := mapCuisineType (GooglePlaceResult.types place);
     Restaurant.priceLevel := JS.num_or (GooglePlaceResult.price_level place) 2;
     Restaurant.image := getBestRestaurantImage (GooglePlaceResult.photos place);
     Restaurant.distance :=
       calculateDistance (UserLocation.lat location) (UserLocation.lng location)
         (lat at_) (lng at_);
     Restaurant.photoAttributions := [] |}.

Definition fallbackWarning : string :=
  "New Place API failed, falling back to legacy PlacesService:".

(** [searchNearbyRestaurants(location, radius = 2000, type = 'restaurant')].
    The [try] block yields [Some] of what it returns, [None] when control
    leaves it without a [return]. *)
Definition searchNearbyRestaurants (location : UserLocation.t) (radius : float)
    (type : string) : Async (list Restaurant.t) :=
  initializeGoogleMapsService ;;
  returned <-
    try_catch
      (match Place_searchNearby G with
       | Some searchNearby =>
           emit (PlaceSearchNearby (center location) radius ["restaurant"]) ;;
           response <- settle (searchNearby (center location) radius) ;;
           let places := orEmpty response in
           restaurants <- settle (map_throwing (restaurantOfNearbyPlace location) places) ;;
           ret (Some restaurants)
       | None => ret None
       end)
      (fun error => emit (ConsoleWarn fallbackWarning error) ;; ret None) ;;
  match returned with
  | Some restaurants => ret restaurants
  | None =>
      emit (NearbySearch (center location) radius type) ;;
      let '(results, status) := nearbySearch G (center location) radius type in
      if String.eqb status Status_OK
      then ret (map (restaurantOfNearbyResult location) results)
      else throw (Error ("Places API error: " ++ status))
  end.

(** The callback of [places.map] in the new-shape branch of
    [searchPlacesByText]. *)
Definition restaurantOfTextPlace (location : option UserLocation.t) (place : Place.t)
  : Exn + Restaurant.t :=
  match Place.location place with
  | None => inl (TypeError "lat")
  | Some at_ =>
      inr {| Restaurant.id := JS.ostr_or (Place.place_id place) (Place.id place);
             Restaurant.name :=
               JS.str_or
                 (JS.ostr_or (nested (Place.displayName_text place)) (Place.name place))
                 "Unknown Restaurant";
             Restaurant.rating := JS.num_or (Place.rating place) 0;
             Restaurant.address := JS.str_or (Place.formattedAddress place) "";
             Restaurant.coordinates := {| lat := lat at_; lng := lng at_ |};
             Restaurant.cuisine := mapCuisineType (orEmpty (Place.types place));
             Restaurant.priceLevel := JS.num_or (Place.priceLevel place) 2;
             Restaurant.image := getBestRestaurantImage (Place.photos place);
             Restaurant.distance :=
               match location with
               | Some l =>
                   calculateDistance (UserLocation.lat l) (UserLocation.lng l)
                     (lat at_) (lng at_)
               | None => 0
               end;
             Restaurant.photoAttributions := firstAuthorAttributions (Place.photos place) |}
  end.

(** The callback of [results.map] in the legacy branch of
    [searchPlacesByText]. *)
Definition restaurantOfTextResult (location : option UserLocation.t)
    (place : GooglePlaceResult.t) : Restaurant.t :=
  let at_ := GooglePlaceResult.location place in
  {| Restaurant.id := Some (GooglePlaceResult.place_id place);
     Restaurant.name := GooglePlaceResult.name place;
     Restaurant.rating := JS.num_or (GooglePlaceResult.rating place) 0;
     Restaurant.address := JS.str_or (GooglePlaceResult.formatted_address place) "";
     Restaurant.coordinates := {| lat := lat at_; lng := lng at_ |};
     Restaurant.cuisine := mapCuisineType (GooglePlaceResult.types place);
     Restaurant.priceLevel := JS.num_or (GooglePlaceResult.price_level place) 2;
     Restaurant.image := getBestRestaurantImage (GooglePlaceResult.photos place);
     Restaurant.distance :=
       match location with
       | Some l =>
           calculateDistance (UserLocation.lat l) (UserLocation.lng l)
             (lat at_) (lng at_)
       | None => 0
       end;
     Restaurant.photoAttributions := [] |}.

(** [searchPlacesByText(query, location?, radius?)] *)
Definition searchPlacesByText (query : string) (location : option UserLocation.t)
    (radius : option float) : Async (list Restaurant.t) :=
  initializeGoogleMapsService ;;
  returned <-
    try_catch
      (match Place_searchByText G with
       | Some searchByText =>
           let locationRestriction :=
             option_map (fun l => (center l, JS.num_or radius 50000)) location in
           emit (PlaceSearchByText query) ;;
           response <- settle (searchByText query locationRestriction) ;;
           let places := orEmpty response in
           restaurants <- settle (map_throwing (restaurantOfTextPlace location) places) ;;
           ret (Some restaurants)
       | None => ret None
       end)
      (fun error => emit (ConsoleWarn fallbackWarning error) ;; ret None) ;;
  match returned with
  | Some restaurants => ret restaurants
  | None =>
      let bias :=
        option_map
          (fun l => (center l, if JS.truthy_onum radius then radius else None))
          location in
      emit (TextSearch query) ;;
      let '(results, status) := textSearch G query bias in
      if String.eqb status Status_OK
      then ret (map (restaurantOfTextResult location) results)
      else if String.eqb status Status_ZERO_RESULTS
      then ret []
      else throw (Error ("Text Search API error: " ++ status))
  end.

(** The photo entry [getPlaceDetails] builds from a photo of the new shape. *)
Definition detailsPhotoOfNew (photo : Photo.t) : Photo.t :=
  {| Photo.photo_reference := Photo.name photo;
     Photo.name := None;
     Photo.width := Photo.widthPx photo;
     Photo.height := Photo.heightPx photo;
     Photo.widthPx := None;
     Photo.heightPx := None;
     Photo.authorAttributions := None;
     Photo.attributions := Some (orEmpty (Photo.authorAttributions photo)) |}.

(** The photo entry [getPlaceDetails] builds from a legacy photo. *)
Definition detailsPhotoOfLegacy (photo : Photo.t) : Photo.t :=
  {| Photo.photo_reference := Photo.photo_reference photo;
     Photo.name := None;
     Photo.width := Photo.width photo;
     Photo.height := Photo.height photo;
     Photo.widthPx := None;
     Photo.heightPx := None;
     Photo.authorAttributions := None;
     Photo.attributions := Some [] |}.

Definition detailsOfFetched (placeId : option string) (place : FetchedPlace.t)
  : RestaurantDetails.t :=
  let dg :=
    match FetchedPlace.Dg place with
    | Some dg => dg
    | None => PlaceDg.empty
    end in
  {| RestaurantDetails.place_id :=
       JS.ostr_or
         (JS.ostr_or
            (JS.ostr_or (PlaceDg.id dg) (FetchedPlace.place_id place))
            (FetchedPlace.id place))
         placeId;
     RestaurantDetails.name := JS.str_or (PlaceDg.displayName dg) "Unknown Restaurant";
     RestaurantDetails.formatted_address := JS.str_or (PlaceDg.formattedAddress dg) "";
     RestaurantDetails.formatted_phone_number := PlaceDg.nationalPhoneNumber dg;
     RestaurantDetails.website := JS.ostr_or (PlaceDg.websiteUri dg) (PlaceDg.websiteURI dg);
     RestaurantDetails.rating := JS.num_or (PlaceDg.rating dg) 0;
     RestaurantDetails.photos :=
       match PlaceDg.photos dg with
       | Some photos =>
           Some (map detailsPhotoOfNew
                   (filter (fun photo => JS.usable (Photo.name photo)) photos))
       | None => Some []
       end;
     RestaurantDetails.opening_hours := PlaceDg.currentOpeningHours dg;
     RestaurantDetails.location :=
       {| lat := match PlaceDg.location dg with
                 | Some (Some v, _) => v
                 | _ => 0
                 end;
          lng := match PlaceDg.location dg with
                 | Some (_, Some v) => v
                 | _ => 0
                 end |} |}.

Definition detailsOfResult (place : GooglePlaceResult.t) : RestaurantDetails.t :=
  {| RestaurantDetails.place_id := Some (GooglePlaceResult.place_id place);
     RestaurantDetails.name := GooglePlaceResult.name place;
     RestaurantDetails.formatted_address :=
       JS.str_or (GooglePlaceResult.formatted_address place) "";
     RestaurantDetails.formatted_phone_number :=
       GooglePlaceResult.formatted_phone_number place;
     RestaurantDetails.website := GooglePlaceResult.website place;
     RestaurantDetails.rating := JS.num_or (GooglePlaceResult.rating place) 0;
     RestaurantDetails.photos :=
       option_map (map detailsPhotoOfLegacy) (GooglePlaceResult.photos place);
     RestaurantDetails.opening_hours := GooglePlaceResult.opening_hours place;
     RestaurantDetails.location := GooglePlaceResult.location place |}.

Definition getPlaceDetails (placeId : option string) : Async RestaurantDetails.t :=
  initializeGoogleMapsService ;;
  returned <-
    try_catch
      (match Place_fetchFields G with
       | Some fetchFields =>
           emit (PlaceFetchFields placeId) ;;
           place <- settle (fetchFields placeId) ;;
           ret (Some (detailsOfFetched placeId place))
       | None => ret None
       end)
      (fun error => emit (ConsoleWarn fallbackWarning error) ;; ret None) ;;
  match returned with
  | Some details => ret details
  | None =>
      emit (GetDetails placeId) ;;
      let '(place, status) := getDetails G placeId in
      if String.eqb status Status_OK
      then ret (detailsOfResult place)
      else throw (Error ("Place Details API error: " ++ status))
  end.

(** ** Enrichment pipeline *)

Definition enhanceRestaurantWithPhotos (restaurant : Restaurant.t) : Async Restaurant.t :=
  if negb (String.eqb (Restaurant.image restaurant) "/placeholder.svg")
  then ret restaurant
  else
    returned <-
      try_catch
        (details <- getPlaceDetails (Restaurant.id restaurant) ;;
         match RestaurantDetails.photos details with
         | Some (photo :: photos) =>
             ret (Some (Restaurant.with_image restaurant
                          (getBestRestaurantImage (Some (photo :: photos)))))
         | _ => ret None
         end)
        (fun error =>
           emit (ConsoleWarn
                   ("Failed to enhance restaurant " ++ Restaurant.name restaurant
                    ++ " with photos:") error) ;;
           ret None) ;;
    match returned with
    | Some enhanced => ret enhanced
    | None => ret restaurant
    end.

(** ** Geocoding adapter *)

Definition reverseGeocode (lat lng : float) : Async string :=
  initializeGoogleMapsService ;;
  emit (ReverseGeocode {| lat := lat; lng := lng |}) ;;
  let '(results, status) := geocode_location G {| lat := lat; lng := lng |} in
  match (if String.eqb status Status_OK then results else []) with
  | first :: _ => ret (GeocoderResult.formatted_address first)
  | [] => ret (JS.toFixed Number_toString lat 4 ++ ", " ++ JS.toFixed Number_toString lng 4)
  end.

Definition locationOfGeocoderResult (result : GeocoderResult.t) : LocationSearchResult.t :=
  {| LocationSearchResult.place_id := GeocoderResult.place_id result;
     LocationSearchResult.name :=
       JS.str_or (GeocoderResult.first_long_name result)
         (GeocoderResult.formatted_address result);
     LocationSearchResult.formatted_address := GeocoderResult.formatted_address result;
     LocationSearchResult.location := GeocoderResult.location result;
     LocationSearchResult.types := orEmpty (GeocoderResult.types result) |}.

Definition searchLocationsByText (query : string) : Async (list LocationSearchResult.t) :=
  initializeGoogleMapsService ;;
  emit (Geocode query) ;;
  let '(results, status) := geocode_address G query in
  match (if String.eqb status Status_OK then results else None) with
  | Some results => ret (map locationOfGeocoderResult results)
  | None =>
      if String.eqb status Status_ZERO_RESULTS
      then ret []
      else throw (Error ("Geocoding API error: " ++ status))
  end.

(** ** The [useLocationSearch] hook *)

(** The three state cells of the hook. *)
Record LocationSearch := {
  results : list LocationSearchResult.t;
  loading : bool;
  error : option string
}.

Definition setResults (v : list LocationSearchResult.t) (h : LocationSearch) : LocationSearch :=
  {| results := v; loading := loading h; error := error h |}.

Definition setLoading (v : bool) (h : LocationSearch) : LocationSearch :=
  {| results := results h; loading := v; error := error h |}.

Definition setError (v : option string) (h : LocationSearch) : LocationSearch :=
  {| results := results h; loading := loading h; error := v |}.

(** [searchLocations(query)] of [useLocationSearch]: the state cells and the
    store after the call has run to its end, or as far as the [await] that
    never resumes. *)
Definition searchLocations (query : string) (h : LocationSearch) (s : Store)
  : LocationSearch * Store :=
  if negb (JS.truthy_str (JS.trim query)) then (setResults [] h, s)
  else
    let h := setError None (setLoading true h) in
    match searchLocationsByText query s with
    | (Resolved locations, s') => (setLoading false (setResults locations h), s')
    | (Rejected err, s') =>
        let message :=
          match err with
          | Error message => message
          | Thrown _ => "Failed to search locations"
          end in
        (setLoading false (setResults [] (setError (Some message) h)), s')
    | (Pending, s') => (h, s')
    end.

End Service.

(** ** Predicates used in the statements *)

(** The invariant of a coordinate in the data model:
    [-90 <= lat <= 90] and [-180 <= lng <= 180]. *)
Definition validCoordinate (lat lng : float) : bool :=
  ((-90 <=? lat) && (lat <=? 90) && (-180 <=? lng) && (lng <=? 180))%float.

(** A zero or a finite number, in the specification of binary64. *)
Definition SFfinite (x : spec_float) : bool :=
  match x with
  | S754_zero _ | S754_finite _ _ _ => true
  | _ => false
  end.

(** A zero or a finite number of sign [s]. *)
Definition SFbounded (s : bool) (x : spec_float) : Prop :=
  x = S754_zero s \/ exists m e, x = S754_finite s m e.

(** A photo the scan may prefer: both dimensions are not zero and the ratio
    of width to height lies in [[1.2, 2.0]]. *)
Definition landscape (photo : Photo.t) : bool :=
  (negb ((photoWidth photo =? 0) || (photoHeight photo =? 0))
   && (1.2 <=? photoRatio photo) && (photoRatio photo <=? 2.0))%float.

(** A photo whose ratio of width to height is below [1.2]. *)
Definition portrait (photo : Photo.t) : bool :=
  (photoRatio photo <? 1.2)%float.

(** The empty string or white space only. *)
Fixpoint blank (s : string) : bool :=
  match s with
  | EmptyString => true
  | String c r => JS.is_space c && blank r
  end.

(** A place of the new shape without a usable name for the nearby search:
    none of the four fields it probes is a string that is not blank. *)
Definition namelessNearby (place : Place.t) : bool :=
  negb (JS.usable (nested (Place.Dg_displayName place)))
  && negb (JS.usable (nested (Place.displayName_text place)))
  && negb (JS.usable (Place.name place))
  && negb (JS.usable (Place.title place)).

(** The same for the text search, which probes two fields for a string that
    is not empty. *)
Definition namelessText (place : Place.t) : bool :=
  negb (JS.truthy_ostr (nested (Place.displayName_text place)))
  && negb (JS.truthy_ostr (Place.name place)).

(** * Sample runtimes, providers and inputs *)

Module Sample.

Definition joinParams (ps : list (string * string)) : string :=
  String.concat "&" (map (fun kv => fst kv ++ "=" ++ snd kv) ps).

(** A runtime to run the examples on: the first-order approximations of
    sine, cosine and arc tangent at zero, the digits of an integer for
    [Number::toString], and a serializer that escapes nothing. *)
Definition runtime : Runtime :=
  {| Math_sin := fun x => x;
     Math_cos := fun _ => 1%float;
     Math_atan2 := fun y x => (y / x)%float;
     Number_toString := fun x => JS.toFixed (fun _ => "") x 0;
     URL_href := fun base ps => base ++ "?" ++ joinParams ps;
     GOOGLE_MAPS_API_KEY := Some "KEY" |}.

(** The same runtime with, at six arguments, the binary64 numbers nearest
    to the sine and to the cosine, and an arc tangent that is [NaN] at
    [NaN]. *)
Definition nearestSines : Runtime :=
  {| Math_sin := fun x =>
       if (x =? 0.036302848441482058)%float then 0.036294875065575834%float
       else if (x =? -0.036302848441482058)%float then (-0.036294875065575834)%float
       else if (x =? 1.5707963267948966)%float then 1%float
       else if (x =? -1.5707963267948966)%float then (-1)%float
       else x;
     Math_cos := fun x =>
       if (abs x =? 0.036302848441482058)%float then 0.9993411239631712%float
       else 1%float;
     Math_atan2 := fun y x => if PrimFloat.is_nan x then nan else (y / x)%float;
     Number_toString := fun x => JS.toFixed (fun _ => "") x 0;
     URL_href := fun base ps => base ++ "?" ++ joinParams ps;
     GOOGLE_MAPS_API_KEY := Some "KEY" |}.

Definition toronto : UserLocation.t :=
  {| UserLocation.lat := 43.6532; UserLocation.lng := -79.3832;
     UserLocation.address := None |}.

Definition store0 : Store :=
  {| mapInstance := false; scriptTag := false; trace := [] |}.

Definition photo (reference : string) (width height : float) : Photo.t :=
  {| Photo.photo_reference := Some reference; Photo.name := None;
     Photo.width := Some width; Photo.height := Some height;
     Photo.widthPx := None; Photo.heightPx := None;
     Photo.authorAttributions := None; Photo.attributions := None |}.

(** A photo of the new shape. *)
Definition newPhoto (name : string) (widthPx heightPx : float)
    (by_ : list PhotoAttribution) : Photo.t :=
  {| Photo.photo_reference := None; Photo.name := Some name;
     Photo.width := None; Photo.height := None;
     Photo.widthPx := Some widthPx; Photo.heightPx := Some heightPx;
     Photo.authorAttributions := Some by_; Photo.attributions := None |}.

Definition alice : PhotoAttribution :=
  {| displayName := Some "Alice"; uri := None; photoUri := None |}.

(** A legacy result with the given name and types and nothing optional. *)
Definition result (place_id name : string) (types : list string) : GooglePlaceResult.t :=
  {| GooglePlaceResult.place_id := place_id;
     GooglePlaceResult.name := name;
     GooglePlaceResult.vicinity := None;
     GooglePlaceResult.formatted_address := None;
     GooglePlaceResult.location := {| lat := 43.66; lng := -79.39 |};
     GooglePlaceResult.rating := None;
     GooglePlaceResult.price_level := None;
     GooglePlaceResult.types := types;
     GooglePlaceResult.photos := None;
     GooglePlaceResult.opening_hours := None;
     GooglePlaceResult.formatted_phone_number := None;
     GooglePlaceResult.website := None |}.

(** A place of the new shape with an identifier and a location only. *)
Definition nameless : Place.t :=
  {| Place.Dg_displayName := None; Place.displayName_text := None;
     Place.name := None; Place.title := None;
     Place.place_id := None; Place.id := Some "p1";
     Place.rating := None; Place.formattedAddress := None;
     Place.vicinity := None;
     Place.location := Some {| lat := 43.66; lng := -79.39 |};
     Place.types := None; Place.priceLevel := None; Place.photos := None |}.

(** A place of the new shape with one photo, attributed to Alice. *)
Definition photographed : Place.t :=
  {| Place.Dg_displayName := None; Place.displayName_text := Some (Some "Cafe");
     Place.name := None; Place.title := None;
     Place.place_id := None; Place.id := Some "p1";
     Place.rating := None; Place.formattedAddress := None;
     Place.vicinity := None;
     Place.location := Some {| lat := 43.66; lng := -79.39 |};
     Place.types := None; Place.priceLevel := None;
     Place.photos := Some [newPhoto "places/p1/photos/x" 1200 800 [alice]] |}.

(** The SDK loaded, no entry point of the new shape, and legacy entry points
    that answer every request with the given status and results. *)
Definition legacyOnly (status : string) (results : list GooglePlaceResult.t) : GoogleSDK :=
  {| loaded := true;
     scriptLoad := Arrives;
     Place_searchNearby := None;
     Place_searchByText := None;
     Place_fetchFields := None;
     nearbySearch := fun _ _ _ => (results, status);
     textSearch := fun _ _ => (results, status);
     getDetails := fun _ => (result "p1" "Cafe" [], status);
     geocode_address := fun _ => (None, status);
     geocode_location := fun _ => ([], status) |}.

(** The same with a nearby search of the new shape that gives [places]. *)
Definition newShape (places : option (list Place.t)) (status : string)
    (results : list GooglePlaceResult.t) : GoogleSDK :=
  {| loaded := true;
     scriptLoad := Arrives;
     Place_searchNearby := Some (fun _ _ => inr places);
     Place_searchByText := Some (fun _ _ => inr places);
     Place_fetchFields := None;
     nearbySearch := fun _ _ _ => (results, status);
     textSearch := fun _ _ => (results, status);
     getDetails := fun _ => (result "p1" "Cafe" [], status);
     geocode_address := fun _ => (None, status);
     geocode_location := fun _ => ([], status) |}.


(** The SDK is not in the page, and its script, once asked for, errors. *)
Definition notLoaded : GoogleSDK :=
  {| loaded := false;
     scriptLoad := Errors;
     Place_searchNearby := None;
     Place_searchByText := None;
     Place_fetchFields := None;
     nearbySearch := fun _ _ _ => ([], "UNKNOWN_ERROR");
     textSearch := fun _ _ => ([], "UNKNOWN_ERROR");
     getDetails := fun _ => (result "p1" "Cafe" [], "UNKNOWN_ERROR");
     geocode_address := fun _ => (None, "UNKNOWN_ERROR");
     geocode_location := fun _ => ([], "UNKNOWN_ERROR") |}.

(** A restaurant as a search leaves it when the provider sent no photo. *)
Definition unenriched : Restaurant.t :=
  {| Restaurant.id := Some "p1";
     Restaurant.name := "Cafe";
     Restaurant.rating := 4.5;
     Restaurant.address := "1 Main St";
     Restaurant.coordinates := {| lat := 43.66; lng := -79.39 |};
     Restaurant.cuisine := Label "Cafe";
     Restaurant.priceLevel := 2;
     Restaurant.image := "/placeholder.svg";
     Restaurant.distance := 1.5;
     Restaurant.photoAttributions := [] |}.

(** The SDK loaded, with a [fetchFields] that finds one photo, attributed
    to Alice. *)
Definition withDetails : GoogleSDK :=
  {| loaded := true;
     scriptLoad := Arrives;
     Place_searchNearby := None;
     Place_searchByText := None;
     Place_fetchFields :=
       Some (fun _ =>
         inr {| FetchedPlace.Dg :=
                  Some {| PlaceDg.id := Some "p1";
                          PlaceDg.displayName := Some "Cafe";
                          PlaceDg.formattedAddress := None;
                          PlaceDg.nationalPhoneNumber := None;
                          PlaceDg.websiteUri := None;
                          PlaceDg.websiteURI := None;
                          PlaceDg.rating := None;
                          PlaceDg.photos :=
                            Some [newPhoto "places/p1/photos/x" 1200 800 [alice]];
                          PlaceDg.currentOpeningHours := None;
                          PlaceDg.location := None |};
                FetchedPlace.place_id := None;
                FetchedPlace.id := Some "p1" |});
     nearbySearch := fun _ _ _ => ([], "OK");
     textSearch := fun _ _ => ([], "OK");
     getDetails := fun _ => (result "p1" "Cafe" [], "OK");
     geocode_address := fun _ => (None, "OK");
     geocode_location := fun _ => ([], "OK") |}.

(** The photo entry of the details [withDetails] leads to. *)
Definition detailsPhoto : Photo.t :=
  {| Photo.photo_reference := Some "places/p1/photos/x"; Photo.name := None;
     Photo.width := Some 1200%float; Photo.height := Some 800%float;
     Photo.widthPx := None; Photo.heightPx := None;
     Photo.authorAttributions := None; Photo.attributions := Some [alice] |}.

End Sample.

(** * The rest of the service layer and its callers *)

Section Images.
Context {RT : Runtime}.

(** The four sizes [getRestaurantImages] returns. *)
Record RestaurantImages := {
  thumbnail : string;
  medium : string;
  large : string;
  hero : string
}.

Definition placeholders : RestaurantImages :=
  {| thumbnail := "/placeholder.svg"; medium := "/placeholder.svg";
     large := "/placeholder.svg"; hero := "/placeholder.svg" |}.

Definition getRestaurantImages (photos : option (list Photo.t)) : RestaurantImages :=
  match photos with
  | None | Some [] => placeholders
  | Some (bestPhoto :: _) =>
      let photoRef := JS.ostr_or (Photo.photo_reference bestPhoto) (Photo.name bestPhoto) in
      if negb (JS.truthy_ostr photoRef) then placeholders
      else
        {| thumbnail := getPlacePhotoUrl (JS.str_or photoRef "") 200 150;
           medium := getPlacePhotoUrl (JS.str_or photoRef "") 400 300;
           large := getPlacePhotoUrl (JS.str_or photoRef "") 800 600;
           hero := getPlacePhotoUrl (JS.str_or photoRef "") 1200 800 |}
  end.

(** ['thumbnail' | 'medium' | 'large' | 'hero'] *)
Inductive ImageSize := Thumbnail | Medium | Large | Hero.

(** [sizeConfig[size]] *)
Definition sizeConfig (size : ImageSize) : float * float :=
  match size with
  | Thumbnail => (200, 150)
  | Medium => (400, 300)
  | Large => (800, 600)
  | Hero => (1200, 800)
  end%float.

(** [getRestaurantImageWithFallback(photos, size = 'medium')] *)
Definition getRestaurantImageWithFallback (photos : option (list Photo.t))
    (size : ImageSize) : string :=
  match photos with
  | None | Some [] => "/placeholder.svg"
  | Some (bestPhoto :: _) =>
      let photoRef := JS.ostr_or (Photo.photo_reference bestPhoto) (Photo.name bestPhoto) in
      if negb (JS.truthy_ostr photoRef) then "/placeholder.svg"
      else
        let config := sizeConfig size in
        getPlacePhotoUrl (JS.str_or photoRef "") (fst config) (snd config)
  end.

(** The field of [getRestaurantImages] a size names. *)
Definition imageOfSize (images : RestaurantImages) (size : ImageSize) : string :=
  match size with
  | Thumbnail => thumbnail images
  | Medium => medium images
  | Large => large images
  | Hero => hero images
  end.

End Images.

(** [Promise.all] of a promise and of the promises after it: fulfilled
    with all the values, in order, when all are fulfilled; rejected when one
    is rejected; pending otherwise. *)
Definition all_cons {A} (first : Outcome A) (others : Outcome (list A))
  : Outcome (list A) :=
  match first, others with
  | Resolved a, Resolved l => Resolved (a :: l)
  | Rejected e, _ => Rejected e
  | _, Rejected e => Rejected e
  | _, _ => Pending
  end.

Section Batch.
Context {RT : Runtime}.
Variable G : GoogleSDK.

(** [enhanceRestaurantsWithPhotos]: [Promise.all] over one
    [enhanceRestaurantWithPhotos] per restaurant. Every call runs, whatever
    becomes of the others. The calls run concurrently; the values are in the
    order of the input, and the store is the one of the schedule that runs
    the calls one after the other. *)
Fixpoint enhanceRestaurantsWithPhotos (restaurants : list Restaurant.t)
  : Async (list Restaurant.t) :=
  match restaurants with
  | [] => ret []
  | restaurant :: rest =>
      fun s =>
        let '(enhanced, s1) := enhanceRestaurantWithPhotos G restaurant s in
        let '(others, s2) := enhanceRestaurantsWithPhotos rest s1 in
        (all_cons enhanced others, s2)
  end.

End Batch.

(** ** The hooks of [useGoogleMaps] *)

Module Hook.

(** A call of one of the setters of a hook whose data has type [A]. *)
Inductive Update (A : Type) :=
  | SetData (value : A)
  | SetLoading (value : bool)
  | SetError (value : option string).
Arguments SetData {A} value.
Arguments SetLoading {A} value.
Arguments SetError {A} value.

(** The state cells of a hook. *)
Record State (A : Type) := {
  data : A;
  loading : bool;
  error : option string
}.
Arguments data {A} s.
Arguments loading {A} s.
Arguments error {A} s.

Definition update {A} (h : State A) (u : Update A) : State A :=
  match u with
  | SetData v => {| data := v; loading := loading h; error := error h |}
  | SetLoading v => {| data := data h; loading := v; error := error h |}
  | SetError v => {| data := data h; loading := loading h; error := v |}
  end.

(** The state after the updates, in order. *)
Definition after {A} (h : State A) (updates : list (Update A)) : State A :=
  fold_left update updates h.

(** [err instanceof Error ? err.message : fallback] *)
Definition messageOf (err : Exn) (fallback : string) : string :=
  match err with
  | Error message => message
  | Thrown _ => fallback
  end.

End Hook.

Section Hooks.
Context {RT : Runtime}.
Variable G : GoogleSDK.
Import Hook.

(** [searchRestaurants(userLocation, searchRadius, type)] of
    [useNearbyRestaurants]: the calls of its setters, in order, and the store
    after. An [await] that never resumes leaves the calls made before it. *)
Definition searchRestaurants (userLocation : UserLocation.t) (searchRadius : float)
    (type : string) (s : Store) : list (Update (list Restaurant.t)) * Store :=
  let '(basic, s1) := searchNearbyRestaurants G userLocation searchRadius type s in
  match basic with
  | Resolved basicResults =>
      let '(enhanced, s2) := enhanceRestaurantsWithPhotos G basicResults s1 in
      match enhanced with
      | Resolved enhancedResults =>
          ([SetLoading true; SetError None; SetData basicResults;
            SetData enhancedResults; SetLoading false], s2)
      | Rejected err =>
          ([SetLoading true; SetError None; SetData basicResults;
            SetError (Some (messageOf err "Failed to fetch restaurants"));
            SetData []; SetLoading false], s2)
      | Pending => ([SetLoading true; SetError None; SetData basicResults], s2)
      end
  | Rejected err =>
      ([SetLoading true; SetError None;
        SetError (Some (messageOf err "Failed to fetch restaurants"));
        SetData []; SetLoading false], s1)
  | Pending => ([SetLoading true; SetError None], s1)
  end.

(** [searchPlaces(query, location?, radius?)] of [usePlaceSearch]. *)
Definition searchPlaces (query : string) (location : option UserLocation.t)
    (radius : option float) (s : Store) : list (Update (list Restaurant.t)) * Store :=
  if negb (JS.truthy_str (JS.trim query)) then ([SetData []], s)
  else
    let '(basic, s1) := searchPlacesByText G query location radius s in
    match basic with
    | Resolved basicResults =>
        let '(enhanced, s2) := enhanceRestaurantsWithPhotos G basicResults s1 in
        match enhanced with
        | Resolved enhancedResults =>
            ([SetLoading true; SetError None; SetData basicResults;
              SetData enhancedResults; SetLoading false], s2)
        | Rejected err =>
            ([SetLoading true; SetError None; SetData basicResults;
              SetError (Some (messageOf err "Failed to search places"));
              SetData []; SetLoading false], s2)
        | Pending => ([SetLoading true; SetError None; SetData basicResults], s2)
        end
    | Rejected err =>
        ([SetLoading true; SetError None;
          SetError (Some (messageOf err "Failed to search places"));
          SetData []; SetLoading false], s1)
    | Pending => ([SetLoading true; SetError None], s1)
    end.

(** [fetchPlaceDetails(placeId)] of [usePlaceDetails]: how its promise ends
    ([None] is [null]), the calls of its setters and the store after. *)
Definition fetchPlaceDetails (placeId : option string) (s : Store)
  : Outcome (option RestaurantDetails.t) * list (Update unit) * Store :=
  let '(details, s1) := getPlaceDetails G placeId s in
  match details with
  | Resolved details =>
      (Resolved (Some details), [SetLoading true; SetError None; SetLoading false], s1)
  | Rejected err =>
      (Resolved None,
       [SetLoading true; SetError None;
        SetError (Some (messageOf err "Failed to fetch place details"));
        SetLoading false], s1)
  | Pending => (Pending, [SetLoading true; SetError None], s1)
  end.

(** [getAddressFromCoordinates(lat, lng)] of [useReverseGeocode]. *)
Definition getAddressFromCoordinates (lat lng : float) (s : Store)
  : Outcome string * list (Update unit) * Store :=
  let '(address, s1) := reverseGeocode G lat lng s in
  match address with
  | Resolved address =>
      (Resolved address, [SetLoading true; SetError None; SetLoading false], s1)
  | Rejected err =>
      (Resolved
         (JS.toFixed Number_toString lat 4 ++ ", " ++ JS.toFixed Number_toString lng 4),
       [SetLoading true; SetError None;
        SetError (Some (messageOf err "Failed to get address"));
        SetLoading false], s1)
  | Pending => (Pending, [SetLoading true; SetError None], s1)
  end.

End Hooks.

(** ** The filter of the feed *)

Module Feed.

(** [String.prototype.includes] *)
Fixpoint includes (s sub : string) : bool :=
  String.prefix sub s ||
  match s with
  | String _ rest => includes rest sub
  | EmptyString => false
  end.

(** The callback of [restaurants.filter] that gives [validRestaurants]. *)
Definition isValid (restaurant : Restaurant.t) : bool :=
  let hasValidName := JS.usable (Some (Restaurant.name restaurant)) in
  let hasValidImage :=
    JS.usable (Some (Restaurant.image restaurant))
    && negb (includes (Restaurant.image restaurant) "placeholder") in
  hasValidName && hasValidImage.

Definition validRestaurants (restaurants : list Restaurant.t) : list Restaurant.t :=
  filter isValid restaurants.

End Feed.

(** ** Predicates used in the statements *)

Definition isCreateMap (ev : Event) : bool :=
  match ev with
  | CreateMap => true
  | _ => false
  end.

(** How many times the hidden map was created. *)
Definition createdMaps (s : Store) : nat :=
  List.length (filter isCreateMap (trace s)).

(** The memoized handle is there exactly when the map was created, once. *)
Definition sessionInvariant (s : Store) : Prop :=
  createdMaps s = if mapInstance s then 1%nat else 0%nat.

(** A key that orders the numbers of binary64 as [SFcompare] does: the
    class by sign, then the exponent, then the mantissa, the last two
    negated for a negative number. *)
Definition orderKey (x : spec_float) : Z * Z * Z :=
  match x with
  | S754_zero _ => (0, 0, 0)
  | S754_infinity false => (2, 0, 0)
  | S754_infinity true => (-2, 0, 0)
  | S754_nan => (0, 0, 0)
  | S754_finite false m e => (1, e, Z.pos m)
  | S754_finite true m e => (-1, - e, Z.neg m)
  end%Z.

Definition compareKeys (a b : Z * Z * Z) : comparison :=
  match Z.compare (fst (fst a)) (fst (fst b)) with
  | Eq =>
      match Z.compare (snd (fst a)) (snd (fst b)) with
      | Eq => Z.compare (snd a) (snd b)
      | c => c
      end
  | c => c
  end.

(** An [async] body that keeps [sessionInvariant]. *)
Definition preserves {A} (m : Async A) : Prop :=
  forall s, sessionInvariant s -> sessionInvariant (snd (m s)).

(** An [async] body that ends without the SDK: without the key it rejects
    with the error of the initialization and leaves the store as it was; with
    the key and a script of the SDK in the document it stays pending and
    leaves the store as it was; with the key and no such script it adds the
    script to the document, and rejects when the script errors and stays
    pending otherwise. The trace and the handle are as they were. *)
Definition endsWithoutSDK {RT : Runtime} {A} (G : GoogleSDK) (m : Async A) : Prop :=
  forall s,
    (JS.truthy_ostr GOOGLE_MAPS_API_KEY = false ->
     m s = (Rejected (Error "Google Maps API failed to load"), s)) /\
    (JS.truthy_ostr GOOGLE_MAPS_API_KEY = true -> scriptTag s = true ->
     m s = (Pending, s)) /\
    (JS.truthy_ostr GOOGLE_MAPS_API_KEY = true -> scriptTag s = false ->
     m s =
       (match scriptLoad G with
        | Errors => Rejected (Error "Google Maps API failed to load")
        | _ => Pending
        end,
        {| mapInstance := mapInstance s; scriptTag := true; trace := trace s |})).

(** The numbers of an entity are usable: the price level is neither zero
    nor [NaN], and the rating is not [NaN]. *)
Definition defaulted (r : Restaurant.t) : Prop :=
  JS.truthy_num (Restaurant.priceLevel r) = true /\
  PrimFloat.is_nan (Restaurant.rating r) = false.

(** ** More samples *)

Module Sample2.

(** The sample runtime without the API key. *)
Definition noKey : Runtime :=
  {| Math_sin := @Math_sin Sample.runtime;
     Math_cos := @Math_cos Sample.runtime;
     Math_atan2 := @Math_atan2 Sample.runtime;
     Number_toString := @Number_toString Sample.runtime;
     URL_href := @URL_href Sample.runtime;
     GOOGLE_MAPS_API_KEY := None |}.

(** A legacy result with two photos. *)
Definition withPhotos : GooglePlaceResult.t :=
  {| GooglePlaceResult.place_id := "p3";
     GooglePlaceResult.name := "Bistro";
     GooglePlaceResult.vicinity := Some "2 King St";
     GooglePlaceResult.formatted_address := None;
     GooglePlaceResult.location := {| lat := 43.65; lng := -79.38 |};
     GooglePlaceResult.rating := Some 4.2%float;
     GooglePlaceResult.price_level := Some 3%float;
     GooglePlaceResult.types := ["french_restaurant"; "restaurant"];
     GooglePlaceResult.photos :=
       Some [Sample.photo "a" 100 200; Sample.photo "b" 400 300];
     GooglePlaceResult.opening_hours := None;
     GooglePlaceResult.formatted_phone_number := None;
     GooglePlaceResult.website := None |}.


(** The SDK loaded, without the new shape, whose geocoder answers with the
    given status and results. *)
Definition geocoder (status : string) (found : list GeocoderResult.t) : GoogleSDK :=
  {| loaded := true;
     scriptLoad := Arrives;
     Place_searchNearby := None;
     Place_searchByText := None;
     Place_fetchFields := None;
     nearbySearch := fun _ _ _ => ([], "OK");
     textSearch := fun _ _ => ([], "OK");
     getDetails := fun _ => (Sample.result "p1" "Cafe" [], "OK");
     geocode_address := fun _ => (Some found, status);
     geocode_location := fun _ => (found, status) |}.

End Sample2.

(** * Facts on binary64 arithmetic

    Proved from the specification of the primitive operations
    ([FloatAxioms]), on the functions of [SpecFloat]. *)

Module FloatFacts.

Local Open Scope float_scope.

(** ** Opposites *)

Lemma SFopp_involutive x : SFopp (SFopp x) = x.
Proof. destruct x as [s|s| |s m e]; simpl; try rewrite negb_involutive; reflexivity. Qed.

Lemma opp_involutive x : - - x = x.
Proof. apply Prim2SF_inj. rewrite !opp_spec. apply SFopp_involutive. Qed.

(** Rounding does not look at the sign. *)
Lemma SFopp_binary_round_aux prec emax s m e l :
  SFopp (binary_round_aux prec emax s m e l) = binary_round_aux prec emax (negb s) m e l.
Proof.
  unfold binary_round_aux.
  destruct (shr_fexp prec emax m e l) as [mrs' e'].
  destruct (shr_fexp prec emax _ e' loc_Exact) as [mrs'' e''].
  destruct (shr_m mrs''); simpl; try reflexivity.
  destruct (Z.leb e'' (Z.sub emax prec)); reflexivity.
Qed.

Lemma SFopp_binary_round prec emax s m e :
  SFopp (binary_round prec emax s m e) = binary_round prec emax (negb s) m e.
Proof.
  unfold binary_round.
  destruct (shl_align m e _) as [mz ez].
  apply SFopp_binary_round_aux.
Qed.

Lemma xorb_negb_l a b : xorb (negb a) b = negb (xorb a b).
Proof. destruct a, b; reflexivity. Qed.

Lemma SFmul_opp_l prec emax x y :
  SFmul prec emax (SFopp x) y = SFopp (SFmul prec emax x y).
Proof.
  destruct x as [sx|sx| |sx mx ex], y as [sy|sy| |sy my ey]; simpl;
    rewrite ?xorb_negb_l, ?SFopp_binary_round_aux; reflexivity.
Qed.

Lemma SFmul_comm prec emax x y : SFmul prec emax x y = SFmul prec emax y x.
Proof.
  destruct x as [sx|sx| |sx mx ex], y as [sy|sy| |sy my ey]; simpl;
    rewrite ?(xorb_comm sx sy); try reflexivity.
  now rewrite Pos.mul_comm, Z.add_comm.
Qed.

Lemma mul_comm x y : x * y = y * x.
Proof. apply Prim2SF_inj. rewrite !mul_spec. apply SFmul_comm. Qed.

Lemma mul_opp_l x y : (- x) * y = - (x * y).
Proof. apply Prim2SF_inj. rewrite opp_spec, !mul_spec, opp_spec. apply SFmul_opp_l. Qed.

Lemma mul_opp_r x y : x * (- y) = - (x * y).
Proof. now rewrite mul_comm, mul_opp_l, mul_comm. Qed.

Lemma mul_opp_opp x y : (- x) * (- y) = x * y.
Proof. now rewrite mul_opp_l, mul_opp_r, opp_involutive. Qed.

Lemma SFdiv_opp_l prec emax x y :
  SFdiv prec emax (SFopp x) y = SFopp (SFdiv prec emax x y).
Proof.
  destruct x as [sx|sx| |sx mx ex], y as [sy|sy| |sy my ey]; simpl;
    rewrite ?xorb_negb_l; try reflexivity.
  destruct (SFdiv_core_binary prec emax (Z.pos mx) ex (Z.pos my) ey) as [[mz ez] lz].
  now rewrite SFopp_binary_round_aux.
Qed.

Lemma div_opp_l x y : (- x) / y = - (x / y).
Proof. apply Prim2SF_inj. rewrite opp_spec, !div_spec, opp_spec. apply SFdiv_opp_l. Qed.

(** Subtraction the other way round gives the opposite, unless both
    differences are [+0]. *)
Lemma SFsub_swap prec emax x y :
  SFsub prec emax x y = SFopp (SFsub prec emax y x) \/
  (SFsub prec emax x y = S754_zero false /\ SFsub prec emax y x = S754_zero false).
Proof.
  destruct x as [sx|sx| |sx mx ex], y as [sy|sy| |sy my ey]; simpl;
    try (destruct sx, sy; simpl; auto; fail);
    try (left; rewrite ?negb_involutive; reflexivity).
  rewrite (Z.min_comm ey ex).
  set (ez := Z.min ex ey).
  set (a := cond_Zopp sx _). set (b := cond_Zopp sy _).
  replace (Z.sub b a) with (Z.opp (Z.sub a b))
    by (unfold Z.sub; rewrite Z.opp_add_distr, Z.opp_involutive; apply Z.add_comm).
  destruct (Z.sub a b) as [|p|p]; simpl.
  - right; split; reflexivity.
  - left. now rewrite SFopp_binary_round.
  - left. now rewrite SFopp_binary_round.
Qed.

Lemma sub_swap x y :
  x - y = - (y - x) \/ (x - y = 0 /\ y - x = 0).
Proof.
  destruct (SFsub_swap prec emax (Prim2SF x) (Prim2SF y)) as [H|[H1 H2]].
  - left. apply Prim2SF_inj. now rewrite opp_spec, !sub_spec.
  - right. split; apply Prim2SF_inj; rewrite sub_spec; assumption.
Qed.

(** ** The magnitude of a rounded product *)

Local Open Scope Z_scope.

Lemma digits2_size p : digits2_pos p = Pos.size p.
Proof. induction p; simpl; congruence. Qed.

Lemma Zdigits2_nonneg z : 0 <= Zdigits2 z.
Proof. destruct z; simpl; lia. Qed.

Lemma Zdigits2_gt z : 0 <= z -> z < 2 ^ Zdigits2 z.
Proof.
  destruct z as [|p|p]; simpl; intros H; try lia.
  rewrite digits2_size.
  pose proof (Pos.size_gt p) as G.
  apply Pos2Z.pos_lt_pos in G. now rewrite Pos2Z.inj_pow in G.
Qed.

Lemma Zdigits2_le z k : 0 <= k -> 0 <= z < 2 ^ k -> Zdigits2 z <= k.
Proof.
  intros Hk [H0 H1].
  destruct z as [|p|p]; simpl; try lia.
  rewrite digits2_size.
  pose proof (Pos.size_le p) as G.
  apply Pos2Z.pos_le_pos in G. rewrite Pos2Z.inj_pow in G.
  assert (2 ^ Z.pos (Pos.size p) < 2 ^ (k + 1)) as L.
  { rewrite Z.pow_add_r by lia. change (Z.pos p~0) with (2 * Z.pos p) in G. lia. }
  apply Z.pow_lt_mono_r_iff in L; lia.
Qed.

(** A shift to the right halves a mantissa that is not negative. *)
Lemma shr_1_m mrs : 0 <= shr_m mrs -> shr_m (shr_1 mrs) = shr_m mrs / 2.
Proof.
  destruct mrs as [m r s]; simpl. intros H.
  rewrite <- Z.div2_div.
  destruct m as [|[p|p|]|p]; simpl; try reflexivity; lia.
Qed.

Lemma iter_pos_shr_m p : forall mrs, 0 <= shr_m mrs ->
  shr_m (iter_pos shr_1 p mrs) = shr_m mrs / 2 ^ Z.pos p.
Proof.
  induction p as [p IH|p IH|]; intros mrs H; simpl iter_pos.
  - assert (0 <= shr_m (shr_1 mrs))
      by (rewrite shr_1_m by assumption; apply Z.div_pos; lia).
    assert (0 <= shr_m (iter_pos shr_1 p (shr_1 mrs)))
      by (rewrite IH by assumption; apply Z.div_pos; lia).
    rewrite IH, IH, shr_1_m by assumption.
    rewrite !Z.div_div by lia.
    f_equal. replace (Z.pos p~1) with (1 + Z.pos p + Z.pos p) by lia.
    rewrite !Z.pow_add_r by lia. change (2 ^ 1) with 2. ring.
  - assert (0 <= shr_m (iter_pos shr_1 p mrs))
      by (rewrite IH by assumption; apply Z.div_pos; lia).
    rewrite IH, IH by assumption.
    rewrite !Z.div_div by lia.
    f_equal. replace (Z.pos p~0) with (Z.pos p + Z.pos p) by lia.
    now rewrite !Z.pow_add_r by lia.
  - rewrite shr_1_m by assumption. reflexivity.
Qed.

Section Round.
Variables prec emax : Z.
Hypothesis prec_pos : 0 < prec.
Hypothesis emax_ge : 2 <= emax.

(** The mantissa after [shr_fexp] and how far the exponent moved. *)
Lemma shr_fexp_exact m e :
  0 <= m ->
  let n := fexp prec emax (Zdigits2 m + e) - e in
  (n <= 0 /\
   shr_fexp prec emax m e loc_Exact
     = ({| shr_m := m; shr_r := false; shr_s := false |}, e)) \/
  (0 < n /\
   exists mrs, shr_fexp prec emax m e loc_Exact = (mrs, e + n) /\
               shr_m mrs = m / 2 ^ n).
Proof.
  intros Hm n. unfold shr_fexp, shr. fold n.
  destruct n as [|p|p] eqn:E.
  - left. split; [lia|reflexivity].
  - right. split; [lia|]. eexists. split; [reflexivity|].
    now rewrite iter_pos_shr_m.
  - left. split; [lia|reflexivity].
Qed.

Lemma round_nearest_even_bounds m l :
  m <= round_nearest_even m l <= m + 1.
Proof.
  destruct l as [|[]]; simpl; try lia. destruct (Z.even m); lia.
Qed.

(** Rounding a mantissa that is not negative, of [d] digits and exponent
    [e], with [e <= emax - prec] and [d + e < emax], does not overflow. *)
Lemma binary_round_aux_bounded s m e :
  0 <= m -> e <= emax - prec -> Zdigits2 m + e < emax ->
  SFbounded s (binary_round_aux prec emax s m e loc_Exact).
Proof.
  intros Hm He Hd. unfold binary_round_aux.
  destruct (shr_fexp_exact m e Hm) as [[Hn ->]|[Hn [mrs [-> Hmrs]]]].
  - cbn [shr_m loc_of_shr_record round_nearest_even].
    destruct (shr_fexp_exact m e Hm) as [[_ ->]|[Hn' _]]; [|lia].
    cbn [shr_m]. destruct m as [|p|p]; [left; reflexivity| |lia].
    right. apply Z.leb_le in He. rewrite He. eauto.
  - set (n := fexp prec emax (Zdigits2 m + e) - e) in *.
    set (m2 := round_nearest_even (shr_m mrs) (loc_of_shr_record mrs)).
    assert (0 <= shr_m mrs) as H1 by (rewrite Hmrs; apply Z.div_pos; lia).
    pose proof (round_nearest_even_bounds (shr_m mrs) (loc_of_shr_record mrs)) as B.
    fold m2 in B.
    assert (0 <= m2) as H2 by lia.
    assert (e + n <= emax - prec) as He'.
    { unfold n, fexp, SpecFloat.emin in *. lia. }
    assert (Zdigits2 m2 + (e + n) <= emax) as Hd'.
    { assert (m2 < 2 ^ (Z.max (Zdigits2 m - n) 0 + 1)) as U.
      { pose proof (Zdigits2_gt m Hm) as G.
        pose proof (Zdigits2_nonneg m) as D.
        assert (shr_m mrs < 2 ^ Z.max (Zdigits2 m - n) 0) as Q.
        { rewrite Hmrs. apply Z.div_lt_upper_bound; [lia|].
          rewrite <- Z.pow_add_r by lia.
          eapply Z.lt_le_trans; [exact G|].
          apply Z.pow_le_mono_r; lia. }
        rewrite Z.pow_add_r by lia. change (2 ^ 1) with 2. lia. }
      assert (Zdigits2 m2 <= Z.max (Zdigits2 m - n) 0 + 1) as V.
      { apply Zdigits2_le; lia. }
      unfold n, fexp, SpecFloat.emin in *. lia. }
    destruct (shr_fexp_exact m2 (e + n) H2) as [[Hn2 ->]|[Hn2 [mrs2 [-> Hmrs2]]]].
    + cbn [shr_m]. destruct m2 as [|p|p]; [left; reflexivity| |lia].
      right. apply Z.leb_le in He'. rewrite He'. eauto.
    + assert (0 <= shr_m mrs2) as H3 by (rewrite Hmrs2; apply Z.div_pos; lia).
      destruct (shr_m mrs2) as [|p|p]; [left; reflexivity| |lia].
      right.
      assert (e + n + (fexp prec emax (Zdigits2 m2 + (e + n)) - (e + n))
              <= emax - prec) as L.
      { unfold fexp, SpecFloat.emin in *. lia. }
      apply Z.leb_le in L. rewrite L. eauto.
Qed.
End Round.

Lemma canonical_digits prec emax m e :
  canonical_mantissa prec emax m e = true -> Z.pos (digits2_pos m) <= prec.
Proof.
  unfold canonical_mantissa, fexp. intros H. apply Z.eqb_eq in H. lia.
Qed.

(** The product of two finite numbers whose exponents add up to less than
    [emax - 2 * prec] is a zero or a finite number. *)
Lemma SFmul_bounded prec emax sx mx ex sy my ey :
  0 < prec -> 2 <= emax ->
  bounded prec emax mx ex = true -> bounded prec emax my ey = true ->
  ex + ey + 2 * prec < emax ->
  SFbounded (xorb sx sy)
    (SFmul prec emax (S754_finite sx mx ex) (S754_finite sy my ey)).
Proof.
  intros Hp He Bx By Hs. cbn [SFmul].
  unfold bounded in Bx, By.
  apply andb_prop in Bx, By. destruct Bx as [Cx _], By as [Cy _].
  apply canonical_digits in Cx, Cy.
  apply binary_round_aux_bounded; try lia.
  assert (Zdigits2 (Z.pos (mx * my))
          <= Z.pos (digits2_pos mx) + Z.pos (digits2_pos my)) as D.
  { apply Zdigits2_le; [lia|]. split; [lia|].
    rewrite Pos2Z.inj_mul, Z.pow_add_r by lia.
    pose proof (Zdigits2_gt (Z.pos mx)) as Gx. pose proof (Zdigits2_gt (Z.pos my)) as Gy.
    cbn [Zdigits2] in Gx, Gy.
    apply Z.mul_lt_mono_nonneg; lia. }
  lia.
Qed.

(** ** Finite numbers and comparisons *)

Local Open Scope float_scope.

Lemma SFcompare_refl_finite s m e :
  SFcompare (S754_finite s m e) (S754_finite s m e) = Some Eq.
Proof.
  simpl. rewrite Z.compare_refl, Pos.compare_cont_refl. destruct s; reflexivity.
Qed.

Lemma is_finite_spec x : is_finite x = SFfinite (Prim2SF x).
Proof.
  unfold is_finite, is_nan, is_infinity.
  rewrite !eqb_spec, abs_spec. change (Prim2SF infinity) with (S754_infinity false).
  unfold SFeqb.
  destruct (Prim2SF x) as [s|s| |s m e]; try reflexivity.
  - destruct s; reflexivity.
  - rewrite SFcompare_refl_finite. reflexivity.
Qed.

Lemma SFcompare_swap x y : SFcompare y x = option_map CompOpp (SFcompare x y).
Proof.
  destruct x as [sx|sx| |sx mx ex], y as [sy|sy| |sy my ey]; simpl;
    try (destruct sx; reflexivity); try (destruct sy; reflexivity);
    try (destruct sx, sy; reflexivity); try reflexivity.
  rewrite (Z.compare_antisym ex ey), !Pos.compare_cont_spec.
  rewrite (Pos.compare_antisym mx my). simpl.
  destruct sx, sy; simpl; try reflexivity;
    destruct (Z.compare ex ey); simpl; try reflexivity;
    destruct (Pos.compare mx my); reflexivity.
Qed.

(** [a <= b] excludes [b < a]. *)
Lemma leb_not_ltb a b : (a <=? b) = true -> (b <? a) = false.
Proof.
  rewrite leb_spec, ltb_spec. unfold SFleb, SFltb.
  rewrite (SFcompare_swap (Prim2SF a) (Prim2SF b)).
  destruct (SFcompare (Prim2SF a) (Prim2SF b)) as [[]|]; simpl; congruence.
Qed.

(** A number between two finite numbers is finite. *)
Lemma between_finite lo hi x :
  is_finite lo = true -> is_finite hi = true ->
  (lo <=? x) = true -> (x <=? hi) = true -> is_finite x = true.
Proof.
  rewrite !is_finite_spec, !leb_spec. unfold SFleb.
  destruct (Prim2SF x) as [s|s| |s m e]; try reflexivity;
    destruct (Prim2SF lo) as [sl|sl| |sl ml el], (Prim2SF hi) as [sh|sh| |sh mh eh];
    simpl; try discriminate; destruct s; simpl; discriminate.
Qed.

(** A finite number minus itself is [+0]. *)
Lemma sub_diag x : is_finite x = true -> x - x = 0.
Proof.
  rewrite is_finite_spec. intros H. apply Prim2SF_inj. rewrite sub_spec.
  change (Prim2SF 0) with (S754_zero false).
  destruct (Prim2SF x) as [s|s| |s m e]; try discriminate; simpl.
  - destruct s; reflexivity.
  - unfold SF64sub, SFsub. now rewrite Z.sub_diag.
Qed.

Lemma mul_zero_r x : SFbounded false (Prim2SF x) -> x * 0 = 0.
Proof.
  intros H. apply Prim2SF_inj. rewrite mul_spec.
  change (Prim2SF 0) with (S754_zero false).
  destruct H as [->|[m [e ->]]]; reflexivity.
Qed.

Lemma prec_emax_bounds : (0 < prec)%Z /\ (2 <= emax)%Z.
Proof. split; reflexivity || (intro H; discriminate H). Qed.

(** The square of a number of magnitude at most one is a finite number that
    is not negative. *)
Lemma square_bounded c : (abs c <=? 1) = true -> SFbounded false (Prim2SF (c * c)).
Proof.
  rewrite leb_spec, abs_spec, mul_spec. unfold SFleb.
  change (Prim2SF 1) with (S754_finite false 4503599627370496 (-52)).
  pose proof (Prim2SF_valid c) as V.
  destruct (Prim2SF c) as [s|s| |s m e]; simpl SFabs; try discriminate.
  - intros _. left. simpl. now destruct s.
  - intros H. replace false with (xorb s s) by (now destruct s).
    destruct prec_emax_bounds.
    apply SFmul_bounded; try assumption.
    cbn [SFcompare] in H. destruct (Z.compare_spec e (-52)); try discriminate;
      unfold prec, emax; lia.
Qed.

(** Scaling a finite number by a number below [2 ^ -4] gives a finite
    number. *)
Lemma mul_small_finite x k mk ek :
  Prim2SF k = S754_finite false mk ek -> (ek + prec <= -4)%Z ->
  is_finite x = true -> is_finite (x * k) = true.
Proof.
  intros Hk Hek. rewrite !is_finite_spec, mul_spec, Hk.
  pose proof (Prim2SF_valid x) as V. pose proof (Prim2SF_valid k) as Vk.
  rewrite Hk in Vk.
  destruct (Prim2SF x) as [s|s| |s m e]; try discriminate; intros _.
  - reflexivity.
  - destruct prec_emax_bounds.
    assert (SFbounded (xorb s false)
              (SFmul prec emax (S754_finite s m e) (S754_finite false mk ek))) as B.
    { apply SFmul_bounded; try assumption.
      cbn [valid_binary] in V. unfold bounded in V.
      apply andb_prop in V. destruct V as [_ V].
      apply Z.leb_le in V. unfold prec, emax in *. lia. }
    unfold SF64mul. destruct B as [->|[m' [e' ->]]]; reflexivity.
Qed.

End FloatFacts.

(** * The embedding on concrete inputs *)

Section Examples.
Local Open Scope float_scope.

Example toFixed_rounds_to_nearest :
  JS.toFixed (@Number_toString Sample.runtime) 1.005 2 = "1.00" /\
  JS.toFixed (@Number_toString Sample.runtime) 2.5 0 = "3" /\
  JS.toFixed (@Number_toString Sample.runtime) 0.00005 4 = "0.0001" /\
  JS.toFixed (@Number_toString Sample.runtime) (-0.000049) 4 = "-0.0000" /\
  JS.toFixed (@Number_toString Sample.runtime) (-0) 4 = "0.0000" /\
  JS.toFixed (@Number_toString Sample.runtime) nan 4 = "NaN".
Proof. repeat split. Qed.

Example trim_both_ends :
  JS.trim "  Pad Thai " = "Pad Thai" /\ JS.trim "   " = "" /\ JS.trim "" = "".
Proof. repeat split. Qed.

Example mapCuisineType_examples :
  mapCuisineType ["japanese_restaurant"; "restaurant"] = Label "Japanese" /\
  mapCuisineType ["restaurant"; "food"] = Label "Restaurant" /\
  mapCuisineType [] = Label "Restaurant".
Proof. repeat split. Qed.

Example getPlacePhotoUrl_both_formats :
  @getPlacePhotoUrl Sample.runtime "places/p1/photos/x" 800 600
    = "https://places.googleapis.com/v1/places/p1/photos/x/media?maxWidthPx=800&maxHeightPx=600&key=KEY" /\
  @getPlacePhotoUrl Sample.runtime "CmRaAAAA" 800 600
    = "https://maps.googleapis.com/maps/api/place/photo?photoreference=CmRaAAAA&maxwidth=800&maxheight=600&key=KEY".
Proof. repeat split. Qed.

Example getBestRestaurantImage_examples :
  @getBestRestaurantImage Sample.runtime None = "/placeholder.svg" /\
  @getBestRestaurantImage Sample.runtime (Some []) = "/placeholder.svg" /\
  selectBestPhoto
    (Some [Sample.photo "a" 100 200; Sample.photo "b" 400 300; Sample.photo "c" 800 600;
           Sample.photo "d" 4000 1000])
    = Some (Sample.photo "c" 800 600).
Proof. repeat split. Qed.

End Examples.

(** * Distance *)

Section Distance.
Context {RT : Runtime}.
Local Open Scope float_scope.
Import FloatFacts.

(** What the statements need of [Math.sin], [Math.cos] and [Math.atan2]:
    the sine is odd and maps [+0] to [+0], the cosine of a finite number has
    magnitude at most one, and [atan2(+0, 1)] is [+0]. *)
Hypothesis sin_odd : forall x, Math_sin (- x) = - Math_sin x.
Hypothesis sin_zero : Math_sin 0 = 0.
Hypothesis cos_range : forall x, is_finite x = true -> (abs (Math_cos x) <=? 1) = true.
Hypothesis atan2_zero : Math_atan2 0 1 = 0.

(** The half-angle sine of the scaled difference, as [calculateDistance]
    computes it. *)
Local Abbreviation hav x y := (Math_sin ((y - x) * (Math_PI / 180) / 2)).

Lemma hav_swap x y : hav y x = - hav x y \/ hav y x = hav x y.
Proof.
  destruct (sub_swap x y) as [E|[E1 E2]].
  - left. rewrite E, mul_opp_l, div_opp_l. apply sin_odd.
  - right. now rewrite E1, E2.
Qed.

Lemma hav_square_swap x y : hav y x * hav y x = hav x y * hav x y.
Proof.
  destruct (hav_swap x y) as [-> | ->]; [apply mul_opp_opp | reflexivity].
Qed.

Lemma hav_scaled_square_swap c x y : c * hav y x * hav y x = c * hav x y * hav x y.
Proof.
  destruct (hav_swap x y) as [-> | ->]; [|reflexivity].
  now rewrite (mul_opp_r c), mul_opp_opp.
Qed.

Lemma calculateDistance_symmetric lat1 lng1 lat2 lng2 :
  calculateDistance lat1 lng1 lat2 lng2 = calculateDistance lat2 lng2 lat1 lng1.
Proof.
  unfold calculateDistance. cbv zeta.
  rewrite (hav_square_swap lat1 lat2).
  rewrite (hav_scaled_square_swap _ lng1 lng2).
  now rewrite (mul_comm (Math_cos (lat2 * _))).
Qed.

Lemma validCoordinate_finite lat lng :
  validCoordinate lat lng = true -> is_finite lat = true /\ is_finite lng = true.
Proof.
  unfold validCoordinate. intros H.
  apply andb_prop in H. destruct H as [H H4].
  apply andb_prop in H. destruct H as [H H3].
  apply andb_prop in H. destruct H as [H1 H2].
  split; eapply between_finite; eauto; reflexivity.
Qed.

Lemma calculateDistance_self lat lng :
  is_finite lat = true -> is_finite lng = true ->
  calculateDistance lat lng lat lng = 0.
Proof.
  intros Hlat Hlng. unfold calculateDistance. cbv zeta.
  rewrite (sub_diag lat Hlat), (sub_diag lng Hlng).
  change (0 * (Math_PI / 180) / 2) with 0.
  rewrite sin_zero.
  change (0 * 0) with 0.
  set (c := Math_cos (lat * (Math_PI / 180))).
  assert (c * c * 0 = 0) as Hc.
  { apply mul_zero_r, square_bounded, cos_range.
    eapply mul_small_finite; [reflexivity | | exact Hlat].
    reflexivity || (intro Q; discriminate Q). }
  rewrite Hc.
  change (0 * 0) with 0. change (0 + 0) with 0.
  change (sqrt 0) with 0. change (sqrt (1 - 0)) with 1.
  rewrite atan2_zero. reflexivity.
Qed.

End Distance.

(** C9. Near the antipodes the haversine distance is not a number. The
    coordinates (2.08, 17.24) and (-2.08, -162.76) are valid. On a runtime
    whose sine and cosine take, at the arguments of this call, the binary64
    numbers nearest to the sine and to the cosine, and whose [atan2] of [NaN]
    is [NaN], the sum [a] is [1.0000000000000002], the square root of
    [1 - a] is [NaN], and so is the distance, in both directions: the two
    distances are not [==]. *)
Theorem calculateDistance_nan_near_antipodes (RT : Runtime) :
  Math_sin 0.036302848441482058 = 0.036294875065575834%float ->
  Math_sin (-0.036302848441482058) = (-0.036294875065575834)%float ->
  Math_sin 1.5707963267948966 = 1%float ->
  Math_sin (-1.5707963267948966) = (-1)%float ->
  Math_cos 0.036302848441482058 = 0.9993411239631712%float ->
  Math_cos (-0.036302848441482058) = 0.9993411239631712%float ->
  (forall y, Math_atan2 y nan = nan) ->
  validCoordinate 2.08 17.24 = true /\
  validCoordinate (-2.08) (-162.76) = true /\
  PrimFloat.is_nan (calculateDistance 2.08 17.24 (-2.08) (-162.76)) = true /\
  PrimFloat.is_nan (calculateDistance (-2.08) (-162.76) 2.08 17.24) = true /\
  PrimFloat.eqb (calculateDistance 2.08 17.24 (-2.08) (-162.76))
    (calculateDistance (-2.08) (-162.76) 2.08 17.24) = false.
Proof.
  intros sin_lat sin_lat' sin_lng sin_lng' cos_lat cos_lat' atan2_nan.
  assert (calculateDistance 2.08 17.24 (-2.08) (-162.76) = nan) as AB.
  { unfold calculateDistance. cbv zeta.
    change ((-2.08 - 2.08) * (Math_PI / 180) / 2)%float
      with (-0.036302848441482058)%float.
    change ((-162.76 - 17.24) * (Math_PI / 180) / 2)%float
      with (-1.5707963267948966)%float.
    change (2.08 * (Math_PI / 180))%float with 0.036302848441482058%float.
    change (-2.08 * (Math_PI / 180))%float with (-0.036302848441482058)%float.
    rewrite sin_lat', sin_lng', cos_lat, cos_lat'.
    change (PrimFloat.sqrt
              (1 - (-0.036294875065575834 * -0.036294875065575834 +
                    0.9993411239631712 * 0.9993411239631712 * -1 * -1)))%float
      with nan.
    rewrite atan2_nan. reflexivity. }
  assert (calculateDistance (-2.08) (-162.76) 2.08 17.24 = nan) as BA.
  { unfold calculateDistance. cbv zeta.
    change ((2.08 - -2.08) * (Math_PI / 180) / 2)%float
      with 0.036302848441482058%float.
    change ((17.24 - -162.76) * (Math_PI / 180) / 2)%float
      with 1.5707963267948966%float.
    change (2.08 * (Math_PI / 180))%float with 0.036302848441482058%float.
    change (-2.08 * (Math_PI / 180))%float with (-0.036302848441482058)%float.
    rewrite sin_lat, sin_lng, cos_lat, cos_lat'.
    change (PrimFloat.sqrt
              (1 - (0.036294875065575834 * 0.036294875065575834 +
                    0.9993411239631712 * 0.9993411239631712 * 1 * 1)))%float
      with nan.
    rewrite atan2_nan. reflexivity. }
  rewrite AB, BA. repeat split.
Qed.

(** C9, witness: a runtime with these values of the sine and the cosine. *)
Lemma calculateDistance_nan_near_antipodes_witness :
  PrimFloat.is_nan
    (@calculateDistance Sample.nearestSines 2.08 17.24 (-2.08) (-162.76)) = true /\
  PrimFloat.eqb
    (@calculateDistance Sample.nearestSines 2.08 17.24 (-2.08) (-162.76))
    (@calculateDistance Sample.nearestSines (-2.08) (-162.76) 2.08 17.24) = false.
Proof.
  destruct (calculateDistance_nan_near_antipodes Sample.nearestSines
              eq_refl eq_refl eq_refl eq_refl eq_refl eq_refl (fun _ => eq_refl))
    as [_ [_ [AB [_ NE]]]].
  split; [exact AB | exact NE].
Defined.

(** * Nearby search: zero results and fallback *)

Section NearbySearch.
Context {RT : Runtime}.
Variable G : GoogleSDK.

(** With the SDK in the page, or on its way with the key, the wait is
    fulfilled; it adds the script to the document at most. *)
Lemma wait_available s :
  sdkAvailable G = true ->
  exists s', waitForGoogleMaps G s = (Resolved tt, s') /\
             mapInstance s' = mapInstance s /\ trace s' = trace s.
Proof.
  unfold sdkAvailable, waitForGoogleMaps, try_catch, loadGoogleMapsScript, sdkArrives.
  destruct (loaded G); cbn [orb]; [now exists s|].
  intros A. apply andb_prop in A. destruct A as [K A]. rewrite K. cbn [negb].
  destruct (scriptLoad G); try discriminate.
  destruct (scriptTag s); eexists; repeat split.
Qed.

Lemma initialize_available s :
  sdkAvailable G = true ->
  exists s', initializeGoogleMapsService G s = (Resolved tt, s') /\
             mapInstance s' = true /\
             (exists added, trace s' = (trace s ++ added)%list).
Proof.
  intros A. destruct (wait_available s A) as [s1 [W [M T]]].
  unfold initializeGoogleMapsService, bind. rewrite W, A. cbn [negb].
  destruct (mapInstance s1) eqn:M1.
  - exists s1. repeat split; auto. exists []. now rewrite T, app_nil_r.
  - eexists. repeat split. exists [CreateMap]. cbn [trace]. now rewrite T.
Qed.

Lemma loaded_available : loaded G = true -> sdkAvailable G = true.
Proof. intros L. unfold sdkAvailable. now rewrite L. Qed.

Lemma initialize_loaded s :
  loaded G = true ->
  exists s', initializeGoogleMapsService G s = (Resolved tt, s') /\
             mapInstance s' = true /\
             (exists added, trace s' = (trace s ++ added)%list).
Proof. intros L. apply initialize_available, loaded_available, L. Qed.

(** Without the SDK the initialization rejects or never settles: it rejects
    at once without the key; with the key it appends the script when there is
    none in the document, and rejects when that script errors; in every other
    case it stays pending. *)
Lemma initialize_unavailable s :
  sdkAvailable G = false ->
  initializeGoogleMapsService G s = failedInitialization G s.
Proof.
  intros A.
  unfold initializeGoogleMapsService, failedInitialization, bind,
    waitForGoogleMaps, try_catch, loadGoogleMapsScript, ret.
  rewrite A. unfold sdkAvailable, sdkArrives in *.
  destruct (loaded G); cbn [orb] in A; [discriminate|].
  destruct (JS.truthy_ostr GOOGLE_MAPS_API_KEY); cbn [andb negb] in *; [|reflexivity].
  destruct (scriptTag s); destruct (scriptLoad G); try discriminate; reflexivity.
Qed.


(** With the SDK loaded and the [try] block left by a [throw] or without a
    [return], the call is the legacy call: its request is issued and its
    outcome is the outcome of [searchNearbyRestaurants]. *)
Lemma searchNearby_legacy location radius type s results status :
  loaded G = true ->
  (Place_searchNearby G = None \/
   exists f e, Place_searchNearby G = Some f /\
     (f (center location) radius = inl e \/
      exists places, f (center location) radius = inr places /\
        map_throwing (restaurantOfNearbyPlace location) (orEmpty places) = inl e)) ->
  nearbySearch G (center location) radius type = (results, status) ->
  let run := searchNearbyRestaurants G location radius type s in
  fst run =
    (if String.eqb status Status_OK
     then Resolved (map (restaurantOfNearbyResult location) results)
     else Rejected (Error ("Places API error: " ++ status))) /\
  In (NearbySearch (center location) radius type) (trace (snd run)).
Proof.
  intros L N Q. cbv zeta.
  destruct (initialize_loaded s L) as [s1 [E _]].
  unfold searchNearbyRestaurants. unfold_async. rewrite E.
  destruct N as [N|[f [e [N [T|[places [T M]]]]]]]; rewrite N, ?T; cbv beta iota;
    rewrite ?M, Q;
    destruct (String.eqb status Status_OK); cbn [fst snd trace];
    (split; [reflexivity| apply in_or_app; right; now left]).
Qed.



(** [x || d] on a number that is there, and [x || ''] on a string. *)
Lemma num_or_spelled v d :
  JS.num_or (Some v) d = if PrimFloat.is_nan v || PrimFloat.is_zero v then d else v.
Proof. unfold JS.num_or, JS.truthy_num. now destruct (_ || _). Qed.

Lemma str_or_empty v : JS.str_or (Some v) "" = v.
Proof.
  unfold JS.str_or, JS.truthy_str. destruct (String.eqb v "") eqn:E; cbn [negb].
  - apply String.eqb_eq in E. now subst.
  - reflexivity.
Qed.

(** The legacy status [ZERO_RESULTS] is an error of the nearby search. *)
Lemma searchNearby_legacy_zero_results location radius type s results :
  loaded G = true ->
  Place_searchNearby G = None ->
  nearbySearch G (center location) radius type = (results, Status_ZERO_RESULTS) ->
  fst (searchNearbyRestaurants G location radius type s)
    = Rejected (Error "Places API error: ZERO_RESULTS").
Proof.
  intros L N Q.
  destruct (searchNearby_legacy location radius type s results Status_ZERO_RESULTS
              L (or_introl N) Q) as [O _].
  exact O.
Qed.

End NearbySearch.

(** C1. Zero results of a nearby search. Through the new shape an empty or
    missing [places] gives the empty sequence. Through the legacy fallback
    the status [ZERO_RESULTS] rejects with an error, where the claim asks for
    the empty sequence; [searchPlacesByText] does give the empty sequence for
    the same reply. *)
Theorem searchNearby_zero_results_legacy_rejects (RT : Runtime) :
  fst (searchNearbyRestaurants (Sample.newShape (Some []) "OK" [])
         Sample.toronto 2000 "restaurant" Sample.store0) = Resolved [] /\
  fst (searchNearbyRestaurants (Sample.newShape None "OK" [])
         Sample.toronto 2000 "restaurant" Sample.store0) = Resolved [] /\
  fst (searchNearbyRestaurants (Sample.legacyOnly "ZERO_RESULTS" [])
         Sample.toronto 2000 "restaurant" Sample.store0)
    = Rejected (Error "Places API error: ZERO_RESULTS") /\
  fst (searchPlacesByText (Sample.legacyOnly "ZERO_RESULTS" [])
         "restaurant" (Some Sample.toronto) None Sample.store0) = Resolved [].
Proof. repeat split. Qed.




(** * Photo selection *)

Section PhotoSelection.
Local Open Scope float_scope.
Import FloatFacts.

(** An iteration keeps [bestPhoto], or takes a landscape photo of strictly
    larger area. *)
Lemma scanPhoto_cases bestPhoto photo :
  (scanPhoto bestPhoto photo = bestPhoto /\
   (landscape photo = true -> (photoSize bestPhoto <? photoSize photo) = false)) \/
  (scanPhoto bestPhoto photo = photo /\ landscape photo = true).
Proof.
  unfold scanPhoto, landscape, photoRatio, photoSize.
  destruct ((photoWidth photo =? 0) || (photoHeight photo =? 0)); cbn [negb andb].
  - left. split; [reflexivity | discriminate].
  - destruct ((1.2 <=? photoWidth photo / photoHeight photo)
              && (photoWidth photo / photoHeight photo <=? 2.0)); cbn [andb].
    + destruct (photoWidth bestPhoto * photoHeight bestPhoto
                <? photoWidth photo * photoHeight photo).
      * right. split; reflexivity.
      * left. split; reflexivity.
    + left. split; [reflexivity | discriminate].
Qed.

(** After the loop, [bestPhoto] is the photo the loop started from and no
    landscape photo of the sequence has a strictly larger area, or it is a
    landscape photo. *)
Lemma scan_invariant photos : forall start,
  (fold_left scanPhoto photos start = start /\
   forall q, In q photos -> landscape q = true ->
             (photoSize start <? photoSize q) = false) \/
  landscape (fold_left scanPhoto photos start) = true.
Proof.
  induction photos as [|photo photos IH]; intros start; cbn [fold_left].
  - left. split; [reflexivity | intros q []].
  - destruct (scanPhoto_cases start photo) as [[E K]|[E La]]; rewrite E.
    + destruct (IH start) as [[F A]|Lr]; [left | now right].
      split; [exact F|]. intros q [<-|Hq]; auto.
    + destruct (IH photo) as [[F _]|Lr]; right; [now rewrite F | exact Lr].
Qed.

Lemma landscape_not_portrait photo : landscape photo = true -> portrait photo = false.
Proof.
  unfold landscape, portrait. intros H.
  apply andb_prop in H. destruct H as [H _].
  apply andb_prop in H. destruct H as [_ H].
  now apply leb_not_ltb.
Qed.

(** C3. When the photo the scan selects is a portrait one (ratio below
    1.2), no landscape photo of the sequence (no zero dimension, ratio in
    [[1.2, 2.0]]) has a strictly larger area: the scan never returns a
    portrait photo when a landscape one of strictly larger area exists. *)
Theorem selectBestPhoto_portrait_only_without_larger_landscape
    (photos : list Photo.t) (best q : Photo.t) :
  selectBestPhoto (Some photos) = Some best ->
  portrait best = true ->
  In q photos -> landscape q = true ->
  (photoSize best <? photoSize q) = false.
Proof.
  destruct photos as [|first rest]; [discriminate|].
  unfold selectBestPhoto. intros S P Hq Lq.
  assert (fold_left scanPhoto (first :: rest) first = best) as S' by congruence.
  clear S. rename S' into S.
  destruct (scan_invariant (first :: rest) first) as [[F A]|Lr].
  - rewrite F in S. subst best. now apply A.
  - rewrite S in Lr. apply landscape_not_portrait in Lr. congruence.
Qed.

End PhotoSelection.

(** C3, witness: a portrait photo followed by a smaller landscape one. *)
Lemma selectBestPhoto_portrait_witness :
  (photoSize (Sample.photo "a" 100 200) <? photoSize (Sample.photo "b" 150 100))%float
  = false.
Proof.
  apply (selectBestPhoto_portrait_only_without_larger_landscape
           [Sample.photo "a" 100 200; Sample.photo "b" 150 100]
           (Sample.photo "a" 100 200) (Sample.photo "b" 150 100)).
  - reflexivity.
  - reflexivity.
  - right. left. reflexivity.
  - reflexivity.
Defined.

(** C3, counterexample to the claim as stated: the scan returns the portrait
    photo [a] although the landscape photo [b] of the sequence has an equal
    area. *)
Lemma selectBestPhoto_keeps_portrait_on_equal_area :
  let a := Sample.photo "a" 100 200 in
  let b := Sample.photo "b" 200 100 in
  selectBestPhoto (Some [a; b]) = Some a /\
  portrait a = true /\
  In b [a; b] /\ landscape b = true /\
  (photoSize a <=? photoSize b)%float = true.
Proof.
  cbv zeta. repeat split. right. left. reflexivity.
Qed.

(** * Cuisine classification *)

Section Cuisine.

Lemma own_property_In key o v :
  own_property key o = Some v -> In (key, v) o.
Proof.
  induction o as [|[k w] o IH]; cbn [own_property]; [discriminate|].
  destruct (String.eqb k key) eqn:E.
  - apply String.eqb_eq in E. intros [= ->]. subst. now left.
  - intros H. right. now apply IH.
Qed.

(** Every label of the table is truthy. *)
Lemma cuisineMap_label_truthy tag label :
  own_property tag cuisineMap = Some label -> JS.truthy_str label = true.
Proof.
  intros H. apply own_property_In in H.
  assert (forallb (fun kv => JS.truthy_str (snd kv)) cuisineMap = true) as A
    by reflexivity.
  rewrite forallb_forall in A. exact (A _ H).
Qed.

Lemma cuisineMap_get_own tag label :
  own_property tag cuisineMap = Some label -> cuisineMap_get tag = Some (Label label).
Proof. unfold cuisineMap_get. now intros ->. Qed.

(** Tags that are no key of [cuisineMap], own or inherited, are passed over. *)
Lemma mapCuisineType_skip before rest :
  (forall t, In t before -> cuisineMap_get t = None) ->
  mapCuisineType (before ++ rest) = mapCuisineType rest.
Proof.
  induction before as [|t before IH]; intros H; cbn [app mapCuisineType].
  - reflexivity.
  - rewrite (H t (or_introl eq_refl)). apply IH. intros u Hu. apply H. now right.
Qed.

(** C4. [mapCuisineType] gives the label of the first tag of the sequence
    that is a key of the table, whatever follows it: a specific cuisine tag
    prevails over a generic one when it comes first. A sequence without any
    key of the table, own or inherited, gives ["Restaurant"]. *)
Theorem mapCuisineType_first_match :
  (forall before tag after label,
     (forall t, In t before -> cuisineMap_get t = None) ->
     own_property tag cuisineMap = Some label ->
     mapCuisineType (before ++ tag :: after) = Label label) /\
  (forall types,
     (forall t, In t types -> cuisineMap_get t = None) ->
     mapCuisineType types = Label "Restaurant").
Proof.
  split.
  - intros before tag after label Hb Ht.
    rewrite (mapCuisineType_skip before _ Hb). cbn [mapCuisineType].
    rewrite (cuisineMap_get_own tag label Ht). cbn [truthy_property].
    now rewrite (cuisineMap_label_truthy tag label Ht).
  - intros types H.
    rewrite <- (app_nil_r types). now rewrite (mapCuisineType_skip types [] H).
Qed.

End Cuisine.

(** C4, witness: a tag outside the table, then a specific tag, then a
    generic one; and a sequence of tags outside the table. *)
Lemma mapCuisineType_first_match_witness :
  mapCuisineType (["point_of_interest"] ++ "thai_restaurant" :: ["restaurant"])
    = Label "Thai" /\
  mapCuisineType ["point_of_interest"; "establishment"] = Label "Restaurant".
Proof.
  destruct mapCuisineType_first_match as [first none]. split.
  - apply first; [|reflexivity].
    intros t [<-|[]]. reflexivity.
  - apply none. intros t [<-|[<-|[]]]; reflexivity.
Defined.

(** C4, counterexample to the claim as stated: with the generic tag first,
    the generic label is returned although a specific cuisine tag is in the
    sequence; and a tag that names a member of [Object.prototype], though no
    tag of the table, is answered with that member. *)
Lemma mapCuisineType_order_matters :
  mapCuisineType ["restaurant"; "thai_restaurant"] = Label "Restaurant" /\
  mapCuisineType ["thai_restaurant"; "restaurant"] = Label "Thai" /\
  own_property "toString" cuisineMap = None /\
  mapCuisineType ["toString"] = Inherited "toString".
Proof. repeat split. Qed.

(** * Enrichment *)

Section Enrichment.
Context {RT : Runtime}.
Variable G : GoogleSDK.

(** The details are pending only when the initialization is, which takes
    the SDK to be unavailable. *)
Lemma getPlaceDetails_pending placeId s s' :
  getPlaceDetails G placeId s = (Pending, s') -> sdkAvailable G = false.
Proof.
  destruct (sdkAvailable G) eqn:A; [|reflexivity].
  destruct (initialize_available G s A) as [s1 [E _]].
  unfold getPlaceDetails. unfold_async. rewrite E.
  destruct (Place_fetchFields G) as [f|]; [destruct (f placeId)|];
    destruct (getDetails G placeId) as [place status];
    destruct (String.eqb status Status_OK); discriminate.
Qed.

(** The runs of [enhanceRestaurantWithPhotos]: the restaurant has an image
    and comes back as it is, with no effect; or the details are fetched, and
    then it comes back with the image of the photo selected among theirs, or
    as it is when they hold no photo or the fetch failed, or never when the
    fetch never settles. *)
Lemma enhance_cases restaurant s :
  (Restaurant.image restaurant <> "/placeholder.svg" /\
   enhanceRestaurantWithPhotos G restaurant s = (Resolved restaurant, s)) \/
  (Restaurant.image restaurant = "/placeholder.svg" /\
   ((exists details s' photo photos,
       getPlaceDetails G (Restaurant.id restaurant) s = (Resolved details, s') /\
       RestaurantDetails.photos details = Some (photo :: photos) /\
       enhanceRestaurantWithPhotos G restaurant s =
         (Resolved (Restaurant.with_image restaurant
                      (getBestRestaurantImage (Some (photo :: photos)))), s')) \/
    (exists s', enhanceRestaurantWithPhotos G restaurant s = (Resolved restaurant, s')) \/
    (exists s',
       getPlaceDetails G (Restaurant.id restaurant) s = (Pending, s') /\
       enhanceRestaurantWithPhotos G restaurant s = (Pending, s')))).
Proof.
  unfold enhanceRestaurantWithPhotos.
  destruct (String.eqb (Restaurant.image restaurant) "/placeholder.svg") eqn:E.
  - right. apply String.eqb_eq in E. split; [exact E|]. cbn [negb].
    unfold_async.
    destruct (getPlaceDetails G (Restaurant.id restaurant) s) as [[details|e|] s'].
    + destruct (RestaurantDetails.photos details) as [[|photo photos]|] eqn:P.
      * right. left. now exists s'.
      * left. exists details, s', photo, photos. repeat split. exact P.
      * right. left. now exists s'.
    + right. left. eexists. reflexivity.
    + right. right. now exists s'.
  - left. apply String.eqb_neq in E. split; [exact E | reflexivity].
Qed.

End Enrichment.

(** What the enrichment replaces. An entity whose image is not the
    placeholder comes back unchanged and nothing is fetched (the store is
    left as it was). An entity with the placeholder image whose details hold
    at least one photo comes back with its image replaced by what
    [getBestRestaurantImage] gives for them, and with the
    [photoAttributions] it had. *)
Lemma enhance_replaces_image (RT : Runtime) (G : GoogleSDK)
    (restaurant : Restaurant.t) (s : Store) :
  (Restaurant.image restaurant <> "/placeholder.svg" ->
   enhanceRestaurantWithPhotos G restaurant s = (Resolved restaurant, s)) /\
  (forall details s' photo photos,
     Restaurant.image restaurant = "/placeholder.svg" ->
     getPlaceDetails G (Restaurant.id restaurant) s = (Resolved details, s') ->
     RestaurantDetails.photos details = Some (photo :: photos) ->
     exists enhanced,
       enhanceRestaurantWithPhotos G restaurant s = (Resolved enhanced, s') /\
       Restaurant.image enhanced = getBestRestaurantImage (Some (photo :: photos)) /\
       Restaurant.photoAttributions enhanced = Restaurant.photoAttributions restaurant).
Proof.
  split.
  - intros H. destruct (enhance_cases G restaurant s) as [[_ E]|[E _]]; congruence.
  - intros details s' photo photos I D P.
    unfold enhanceRestaurantWithPhotos. rewrite I.
    cbn [String.eqb Ascii.eqb Bool.eqb negb].
    unfold_async. rewrite D, P.
    eexists. split; [reflexivity|]. split; reflexivity.
Qed.

(** C5. Phase-2 enrichment at the failing input: an entity with the
    placeholder image and no attribution, whose details hold one photo,
    attributed to Alice. That photo is the one selected; the entity comes
    back with the URL of that photo as its image and with no attribution, as
    it came: the attributions that [getPlaceDetails] carried for the photo are
    dropped. The nearby search, for a place with the same photo, sets the
    image and the attributions together. *)
Theorem enhance_keeps_photoAttributions :
  let run := @enhanceRestaurantWithPhotos Sample.runtime Sample.withDetails
               Sample.unenriched Sample.store0 in
  fst (@getPlaceDetails Sample.runtime Sample.withDetails (Some "p1") Sample.store0)
    = Resolved
        {| RestaurantDetails.place_id := Some "p1";
           RestaurantDetails.name := "Cafe";
           RestaurantDetails.formatted_address := "";
           RestaurantDetails.formatted_phone_number := None;
           RestaurantDetails.website := None;
           RestaurantDetails.rating := 0;
           RestaurantDetails.photos := Some [Sample.detailsPhoto];
           RestaurantDetails.opening_hours := None;
           RestaurantDetails.location := {| lat := 0; lng := 0 |} |} /\
  selectBestPhoto (Some [Sample.detailsPhoto]) = Some Sample.detailsPhoto /\
  Photo.attributions Sample.detailsPhoto = Some [Sample.alice] /\
  fst run =
    Resolved
      (Restaurant.with_image Sample.unenriched
         "https://places.googleapis.com/v1/places/p1/photos/x/media?maxWidthPx=800&maxHeightPx=600&key=KEY") /\
  (forall enhanced, fst run = Resolved enhanced ->
     Restaurant.photoAttributions enhanced = []) /\
  (forall found,
     @restaurantOfNearbyPlace Sample.runtime Sample.toronto Sample.photographed
       = inr found ->
     Restaurant.image found =
       "https://places.googleapis.com/v1/places/p1/photos/x/media?maxWidthPx=800&maxHeightPx=600&key=KEY" /\
     Restaurant.photoAttributions found = [Sample.alice]).
Proof.
  cbv zeta. do 4 (split; [reflexivity|]). split.
  - intros enhanced [= <-]. reflexivity.
  - intros found [= <-]. split; reflexivity.
Qed.

(** C10. [enhanceRestaurantWithPhotos] never rejects, and the restaurant it
    resolves with has every field of the input but [image]: whether the
    input came back as it was, with or without a fetch, or with a new image.
    It resolves unless the entity has the placeholder image and the SDK is
    not available, where the fetch may never settle. *)
Theorem enhance_preserves_other_fields (RT : Runtime) (G : GoogleSDK)
    (restaurant : Restaurant.t) (s : Store) :
  match fst (enhanceRestaurantWithPhotos G restaurant s) with
  | Resolved enhanced =>
      Restaurant.id enhanced = Restaurant.id restaurant /\
      Restaurant.name enhanced = Restaurant.name restaurant /\
      Restaurant.rating enhanced = Restaurant.rating restaurant /\
      Restaurant.address enhanced = Restaurant.address restaurant /\
      Restaurant.coordinates enhanced = Restaurant.coordinates restaurant /\
      Restaurant.cuisine enhanced = Restaurant.cuisine restaurant /\
      Restaurant.priceLevel enhanced = Restaurant.priceLevel restaurant /\
      Restaurant.distance enhanced = Restaurant.distance restaurant /\
      Restaurant.photoAttributions enhanced = Restaurant.photoAttributions restaurant
  | Rejected _ => False
  | Pending =>
      sdkAvailable G = false /\ Restaurant.image restaurant = "/placeholder.svg"
  end.
Proof.
  destruct (enhance_cases G restaurant s)
    as [[_ E]|[P [[d [t [p [ps [_ [_ E]]]]]]|[[t E]|[t [D E]]]]]]; rewrite E; cbn [fst].
  - repeat split.
  - repeat split.
  - repeat split.
  - split; [exact (getPlaceDetails_pending G _ _ _ D) | exact P].
Qed.

(** * Geocoding *)

Section Geocoding.
Context {RT : Runtime}.
Variable G : GoogleSDK.

(** The text [reverseGeocode] falls back to. *)
Local Abbreviation fallback lat lng :=
  (JS.toFixed Number_toString lat 4 ++ ", " ++ JS.toFixed Number_toString lng 4).

Lemma reverseGeocode_available lat lng s results status :
  sdkAvailable G = true ->
  geocode_location G {| lat := lat; lng := lng |} = (results, status) ->
  fst (reverseGeocode G lat lng s) =
    match (if String.eqb status Status_OK then results else []) with
    | first :: _ => Resolved (GeocoderResult.formatted_address first)
    | [] => Resolved (fallback lat lng)
    end.
Proof.
  intros A Q. destruct (initialize_available G s A) as [s1 [E _]].
  unfold reverseGeocode. unfold_async. rewrite E, Q.
  now destruct (if String.eqb status Status_OK then results else []).
Qed.

Lemma reverseGeocode_loaded lat lng s results status :
  loaded G = true ->
  geocode_location G {| lat := lat; lng := lng |} = (results, status) ->
  fst (reverseGeocode G lat lng s) =
    match (if String.eqb status Status_OK then results else []) with
    | first :: _ => Resolved (GeocoderResult.formatted_address first)
    | [] => Resolved (fallback lat lng)
    end.
Proof. intros L. apply reverseGeocode_available, loaded_available, L. Qed.

Lemma toFixed_toronto :
  fallback 43.65320 (-79.38320) = "43.6532, -79.3832".
Proof. reflexivity. Qed.

End Geocoding.

(** C6. Reverse geocoding with the SDK loaded always resolves; it resolves
    with the text of the two coordinates, each with four decimals, whenever
    the geocoder's status is not [OK] or it found nothing; for (43.65320,
    -79.38320) that text is ["43.6532, -79.3832"]. *)
Theorem reverseGeocode_fallback (RT : Runtime) (G : GoogleSDK) (lat lng : float)
    (s : Store) :
  (loaded G = true ->
   (exists address, fst (reverseGeocode G lat lng s) = Resolved address) /\
   (forall results status,
      geocode_location G {| lat := lat; lng := lng |} = (results, status) ->
      status <> Status_OK \/ results = [] ->
      fst (reverseGeocode G lat lng s) =
        Resolved (JS.toFixed Number_toString lat 4 ++ ", "
                  ++ JS.toFixed Number_toString lng 4))) /\
  JS.toFixed Number_toString 43.65320 4 ++ ", "
    ++ JS.toFixed Number_toString (-79.38320) 4 = "43.6532, -79.3832".
Proof.
  split.
  - intros L.
    destruct (geocode_location G {| lat := lat; lng := lng |}) as [results status] eqn:Q.
    pose proof (reverseGeocode_loaded G lat lng s results status L Q) as R.
    split.
    + rewrite R. destruct (if String.eqb status Status_OK then results else []); eauto.
    + intros results' status' [= <- <-] H. rewrite R.
      destruct H as [H| ->].
      * apply String.eqb_neq in H. now rewrite H.
      * now destruct (String.eqb status Status_OK).
  - apply toFixed_toronto.
Qed.

(** C6, witness: the provider answers [UNKNOWN_ERROR] for Toronto. *)
Lemma reverseGeocode_fallback_witness :
  fst (@reverseGeocode Sample.runtime (Sample.legacyOnly "UNKNOWN_ERROR" [])
         43.65320 (-79.38320) Sample.store0)
    = Resolved "43.6532, -79.3832".
Proof.
  destruct (reverseGeocode_fallback Sample.runtime (Sample.legacyOnly "UNKNOWN_ERROR" [])
              43.65320 (-79.38320) Sample.store0) as [loaded_case _].
  destruct (loaded_case eq_refl) as [_ failing].
  apply (failing [] "UNKNOWN_ERROR" eq_refl). left. discriminate.
Defined.

(** C6, counterexample to the claim as stated: the script of the SDK, which
    the call appends to the page, fails to load, and reverse geocoding
    rejects; the geocoder was not asked. *)
Lemma reverseGeocode_rejects_when_not_loaded :
  @reverseGeocode Sample.runtime Sample.notLoaded 43.65320 (-79.38320) Sample.store0
    = (Rejected (Error "Google Maps API failed to load"),
       {| mapInstance := false; scriptTag := true; trace := [] |}).
Proof. reflexivity. Qed.

Section LocationSearch.
Context {RT : Runtime}.
Variable G : GoogleSDK.

Lemma trimStart_blank query : blank query = true -> JS.trimStart query = "".
Proof.
  induction query as [|c r IH]; cbn [blank JS.trimStart]; [reflexivity|].
  intros H. apply andb_prop in H. destruct H as [-> H]. now apply IH.
Qed.

Lemma trim_blank query : blank query = true -> JS.trim query = "".
Proof. intros H. unfold JS.trim. now rewrite (trimStart_blank query H). Qed.

(** Without the hook's test, the adapter does call the geocoder with the
    empty query. *)
Lemma searchLocationsByText_empty_query_calls s :
  loaded G = true ->
  In (Geocode "") (trace (snd (searchLocationsByText G "" s))).
Proof.
  intros L. destruct (initialize_loaded G s L) as [s1 [E _]].
  unfold searchLocationsByText. unfold_async. rewrite E.
  destruct (geocode_address G "") as [results status].
  destruct (if String.eqb status Status_OK then results else None);
    [|destruct (String.eqb status Status_ZERO_RESULTS)];
    cbn [snd trace]; apply in_or_app; right; now left.
Qed.

End LocationSearch.

(** C8. [searchLocations] of the hook, given the empty query or white space
    only, sets the results to the empty sequence and leaves the store as it
    was: the SDK is not initialized and no call is issued. *)
Theorem searchLocations_blank_query (RT : Runtime) (G : GoogleSDK) (query : string)
    (h : LocationSearch) (s : Store) :
  blank query = true ->
  let run := searchLocations G query h s in
  results (fst run) = [] /\
  loading (fst run) = loading h /\ error (fst run) = error h /\
  snd run = s.
Proof.
  intros B. cbv zeta. unfold searchLocations.
  rewrite (trim_blank query B). repeat split.
Qed.

(** C8, witness: the empty query, against a provider that would answer. *)
Lemma searchLocations_blank_query_witness :
  let run := @searchLocations Sample.runtime (Sample.legacyOnly "OK" []) ""
               {| results := []; loading := false; error := Some "earlier" |}
               Sample.store0 in
  results (fst run) = [] /\
  loading (fst run) = false /\ error (fst run) = Some "earlier" /\
  snd run = Sample.store0.
Proof.
  exact (searchLocations_blank_query Sample.runtime (Sample.legacyOnly "OK" []) ""
           {| results := []; loading := false; error := Some "earlier" |}
           Sample.store0 eq_refl).
Defined.

(** * Names of the entities *)

Section Names.
Context {RT : Runtime}.

Lemma map_throwing_Forall2 {A B} (f : A -> Exn + B) l bs :
  map_throwing f l = inr bs -> Forall2 (fun a b => f a = inr b) l bs.
Proof.
  revert bs. induction l as [|a l IH]; intros bs; cbn [map_throwing].
  - intros [= <-]. constructor.
  - destruct (f a) as [e|b] eqn:Fa; [discriminate|].
    destruct (map_throwing f l) as [e|bs']; [discriminate|].
    intros [= <-]. constructor; auto.
Qed.

Lemma truthy_or_nonempty s d :
  d <> "" -> (if JS.truthy_str s then s else d) <> "".
Proof.
  intros D. unfold JS.truthy_str.
  destruct (String.eqb s "") eqn:E; cbn [negb]; [exact D|].
  now apply String.eqb_neq.
Qed.

Lemma str_or_nonempty x d : d <> "" -> JS.str_or x d <> "".
Proof.
  intros D. unfold JS.str_or. destruct x as [s|]; [|exact D].
  now apply truthy_or_nonempty.
Qed.

Lemma pick_unusable x otherwise : JS.usable x = false -> pick x otherwise = otherwise.
Proof. unfold pick. now intros ->. Qed.

(** A name the nearby search builds from a place of the new shape. *)
Lemma restaurantOfNearbyPlace_name location place r :
  restaurantOfNearbyPlace location place = inr r ->
  Restaurant.name r <> "" /\
  (namelessNearby place = true -> Restaurant.name r = "Unknown Restaurant").
Proof.
  unfold restaurantOfNearbyPlace.
  destruct (Place.location place); [|discriminate].
  intros [= <-]. cbn [Restaurant.name]. split.
  - apply truthy_or_nonempty. discriminate.
  - unfold namelessNearby. intros H.
    repeat (apply andb_prop in H; destruct H as [H ?]).
    repeat match goal with
           | K : negb _ = true |- _ => apply negb_true_iff in K
           end.
    now rewrite !pick_unusable by assumption.
Qed.

(** A name the text search builds from a place of the new shape. *)
Lemma restaurantOfTextPlace_name location place r :
  restaurantOfTextPlace location place = inr r ->
  Restaurant.name r <> "" /\
  (namelessText place = true -> Restaurant.name r = "Unknown Restaurant").
Proof.
  unfold restaurantOfTextPlace.
  destruct (Place.location place); [|discriminate].
  intros [= <-]. cbn [Restaurant.name]. split.
  - apply str_or_nonempty. discriminate.
  - unfold namelessText. intros H.
    apply andb_prop in H. destruct H as [H1 H2].
    apply negb_true_iff in H1, H2.
    unfold JS.ostr_or. rewrite H1.
    unfold JS.str_or. destruct (Place.name place) as [n|]; [|reflexivity].
    cbn [JS.truthy_ostr] in H2. now rewrite H2.
Qed.

Variable G : GoogleSDK.

(** The nearby search through the new shape. *)
Lemma searchNearby_new_shape location radius type s f places restaurants :
  loaded G = true ->
  Place_searchNearby G = Some f ->
  f (center location) radius = inr places ->
  map_throwing (restaurantOfNearbyPlace location) (orEmpty places) = inr restaurants ->
  fst (searchNearbyRestaurants G location radius type s) = Resolved restaurants.
Proof.
  intros L N Q M. destruct (initialize_loaded G s L) as [s1 [E _]].
  unfold searchNearbyRestaurants. unfold_async.
  rewrite E, N, Q. cbv beta iota. now rewrite M.
Qed.

(** The text search through the new shape. *)
Lemma searchByText_new_shape query location radius s f places restaurants :
  loaded G = true ->
  Place_searchByText G = Some f ->
  f query (option_map (fun l => (center l, JS.num_or radius 50000%float)) location)
    = inr places ->
  map_throwing (restaurantOfTextPlace location) (orEmpty places) = inr restaurants ->
  fst (searchPlacesByText G query location radius s) = Resolved restaurants.
Proof.
  intros L N Q M. destruct (initialize_loaded G s L) as [s1 [E _]].
  unfold searchPlacesByText. unfold_async.
  rewrite E, N, Q. cbv beta iota. now rewrite M.
Qed.

End Names.

(** C7. The entities of the new-shape query paths. When the nearby search,
    or the text search, gets its places through the new shape and builds an
    entity from each, it resolves with these entities; each has a name that
    is not empty, and the name is ["Unknown Restaurant"] for a place without
    a usable name under the fields the search probes. *)
Theorem new_shape_entities_are_named (RT : Runtime) (G : GoogleSDK) (s : Store) :
  (forall location radius type f places restaurants,
     loaded G = true ->
     Place_searchNearby G = Some f ->
     f (center location) radius = inr places ->
     map_throwing (restaurantOfNearbyPlace location) (orEmpty places) = inr restaurants ->
     fst (searchNearbyRestaurants G location radius type s) = Resolved restaurants /\
     Forall2 (fun place r =>
                Restaurant.name r <> "" /\
                (namelessNearby place = true ->
                 Restaurant.name r = "Unknown Restaurant"))
       (orEmpty places) restaurants) /\
  (forall query location radius f places restaurants,
     loaded G = true ->
     Place_searchByText G = Some f ->
     f query (option_map (fun l => (center l, JS.num_or radius 50000%float)) location)
       = inr places ->
     map_throwing (restaurantOfTextPlace location) (orEmpty places) = inr restaurants ->
     fst (searchPlacesByText G query location radius s) = Resolved restaurants /\
     Forall2 (fun place r =>
                Restaurant.name r <> "" /\
                (namelessText place = true ->
                 Restaurant.name r = "Unknown Restaurant"))
       (orEmpty places) restaurants).
Proof.
  split.
  - intros location radius type f places restaurants L N Q M. split.
    + now apply (searchNearby_new_shape G location radius type s f places).
    + apply map_throwing_Forall2 in M.
      eapply Forall2_impl; [|exact M].
      intros place r. apply restaurantOfNearbyPlace_name.
  - intros query location radius f places restaurants L N Q M. split.
    + now apply (searchByText_new_shape G query location radius s f places).
    + apply map_throwing_Forall2 in M.
      eapply Forall2_impl; [|exact M].
      intros place r. apply restaurantOfTextPlace_name.
Qed.

(** C7, witness: a nearby search through the new shape finds one place,
    which has no name. *)
Lemma new_shape_entities_are_named_witness :
  exists restaurants,
    fst (@searchNearbyRestaurants Sample.runtime
           (Sample.newShape (Some [Sample.nameless]) "OK" [])
           Sample.toronto 2000 "restaurant" Sample.store0) = Resolved restaurants /\
    Forall2 (fun place r =>
               Restaurant.name r <> "" /\
               (namelessNearby place = true ->
                Restaurant.name r = "Unknown Restaurant"))
      [Sample.nameless] restaurants.
Proof.
  eexists.
  apply (proj1 (new_shape_entities_are_named Sample.runtime
                  (Sample.newShape (Some [Sample.nameless]) "OK" []) Sample.store0)
           Sample.toronto 2000%float "restaurant"
           (fun _ _ => inr (Some [Sample.nameless])) (Some [Sample.nameless]) _
           eq_refl eq_refl eq_refl eq_refl).
Defined.

(** C7, counterexample to the claim as stated: through the new shape a
    place without a name is called ["Unknown Restaurant"], not ["Unknown"];
    through the legacy shape, of the nearby search and of the text search, a
    result whose name is the empty string gives an entity whose name is
    empty. *)
Lemma legacy_entity_keeps_empty_name :
  (exists r,
     fst (@searchNearbyRestaurants Sample.runtime
            (Sample.newShape (Some [Sample.nameless]) "OK" [])
            Sample.toronto 2000 "restaurant" Sample.store0) = Resolved [r] /\
     Restaurant.name r = "Unknown Restaurant") /\
  (exists r,
     fst (@searchNearbyRestaurants Sample.runtime
            (Sample.legacyOnly "OK" [Sample.result "p2" "" ["restaurant"]])
            Sample.toronto 2000 "restaurant" Sample.store0) = Resolved [r] /\
     Restaurant.name r = "") /\
  (exists r,
     fst (@searchPlacesByText Sample.runtime
            (Sample.legacyOnly "OK" [Sample.result "p2" "" ["restaurant"]])
            "sushi" None None Sample.store0) = Resolved [r] /\
     Restaurant.name r = "").
Proof.
  repeat split; eexists; split; reflexivity.
Qed.

(** * Further properties of the service layer *)

(** ** The provider session *)

Section Session.
Context {RT : Runtime}.
Variable G : GoogleSDK.

Lemma preserves_ret {A} (a : A) : preserves (ret a).
Proof. intros s H. exact H. Qed.

Lemma preserves_throw {A} (e : Exn) : preserves (@throw A e).
Proof. intros s H. exact H. Qed.

Lemma preserves_settle {A} (r : Exn + A) : preserves (settle r).
Proof. destruct r; [apply preserves_throw | apply preserves_ret]. Qed.

Lemma preserves_emit ev : isCreateMap ev = false -> preserves (emit ev).
Proof.
  intros E s H. unfold sessionInvariant, createdMaps, emit in *. cbn [snd trace mapInstance].
  rewrite filter_app, length_app. cbn [filter]. rewrite E. cbn [List.length].
  now rewrite Nat.add_0_r.
Qed.

Lemma preserves_bind {A B} (m : Async A) (k : A -> Async B) :
  preserves m -> (forall a, preserves (k a)) -> preserves (bind m k).
Proof.
  intros Hm Hk s H. unfold bind. specialize (Hm s H).
  destruct (m s) as [[a|e|] s1]; cbn [snd] in *; [now apply Hk | exact Hm | exact Hm].
Qed.

Lemma preserves_try_catch {A} (m : Async A) (h : Exn -> Async A) :
  preserves m -> (forall e, preserves (h e)) -> preserves (try_catch m h).
Proof.
  intros Hm Hh s H. unfold try_catch. specialize (Hm s H).
  destruct (m s) as [[a|e|] s1]; cbn [snd] in *; [exact Hm | now apply Hh | exact Hm].
Qed.

Lemma preserves_load : preserves (loadGoogleMapsScript G).
Proof.
  intros s H. unfold loadGoogleMapsScript.
  destruct (loaded G); [exact H|].
  destruct (negb _); [exact H|].
  destruct (scriptTag s); exact H.
Qed.

Lemma preserves_wait : preserves (waitForGoogleMaps G).
Proof.
  intros s H. unfold waitForGoogleMaps. destruct (loaded G); [exact H|].
  revert s H. apply preserves_try_catch; [apply preserves_load|].
  intros e. apply preserves_ret.
Qed.

Lemma preserves_initialize : preserves (initializeGoogleMapsService G).
Proof.
  unfold initializeGoogleMapsService.
  apply preserves_bind; [apply preserves_wait|]. intros [] s H.
  destruct (negb _); cbn [snd]; [exact H|].
  destruct (mapInstance s) eqn:M; cbn [snd]; [exact H|].
  unfold sessionInvariant, createdMaps in *. rewrite M in H. cbn [trace mapInstance].
  rewrite filter_app, length_app, H. reflexivity.
Qed.

End Session.

(** Splits a goal [preserves m] along the structure of [m]. *)
Ltac preserve :=
  repeat first
    [ apply preserves_initialize
    | apply preserves_ret
    | apply preserves_throw
    | apply preserves_settle
    | apply preserves_emit; reflexivity
    | apply preserves_bind; [|intros ?]
    | apply preserves_try_catch; [|intros ?]
    | match goal with
      | |- preserves (match ?x with _ => _ end) => destruct x
      | |- preserves (if ?b then _ else _) => destruct b
      end ].

Section SessionOperations.
Context {RT : Runtime}.
Variable G : GoogleSDK.

Lemma preserves_searchNearbyRestaurants location radius type :
  preserves (searchNearbyRestaurants G location radius type).
Proof. unfold searchNearbyRestaurants. preserve. Qed.

Lemma preserves_searchPlacesByText query location radius :
  preserves (searchPlacesByText G query location radius).
Proof. unfold searchPlacesByText. preserve. Qed.

Lemma preserves_getPlaceDetails placeId : preserves (getPlaceDetails G placeId).
Proof. unfold getPlaceDetails. preserve. Qed.

Lemma preserves_enhance restaurant : preserves (enhanceRestaurantWithPhotos G restaurant).
Proof.
  unfold enhanceRestaurantWithPhotos.
  destruct (negb _); [apply preserves_ret|].
  preserve.
Qed.

Lemma preserves_enhanceAll restaurants :
  preserves (enhanceRestaurantsWithPhotos G restaurants).
Proof.
  induction restaurants as [|r rest IH]; cbn [enhanceRestaurantsWithPhotos].
  - apply preserves_ret.
  - intros s H. pose proof (preserves_enhance r s H) as H1.
    destruct (enhanceRestaurantWithPhotos G r s) as [o s1]. cbn [snd] in H1.
    pose proof (IH s1 H1) as H2.
    destruct (enhanceRestaurantsWithPhotos G rest s1) as [os s2]. exact H2.
Qed.

Lemma preserves_reverseGeocode lat lng : preserves (reverseGeocode G lat lng).
Proof. unfold reverseGeocode. preserve. Qed.

Lemma preserves_searchLocationsByText query : preserves (searchLocationsByText G query).
Proof. unfold searchLocationsByText. preserve. Qed.

End SessionOperations.



(** X2. Every operation of the service layer keeps the invariant of the
    session: the hidden map has been created once when the handle is there
    and never when it is not, so it is created at most once however the
    operations follow each other. *)
Theorem operations_keep_session (RT : Runtime) (G : GoogleSDK) (s : Store) :
  sessionInvariant s ->
  (createdMaps s <= 1)%nat /\
  (forall location radius type,
     sessionInvariant (snd (searchNearbyRestaurants G location radius type s))) /\
  (forall query location radius,
     sessionInvariant (snd (searchPlacesByText G query location radius s))) /\
  (forall placeId, sessionInvariant (snd (getPlaceDetails G placeId s))) /\
  (forall restaurant,
     sessionInvariant (snd (enhanceRestaurantWithPhotos G restaurant s))) /\
  (forall restaurants,
     sessionInvariant (snd (enhanceRestaurantsWithPhotos G restaurants s))) /\
  (forall lat lng, sessionInvariant (snd (reverseGeocode G lat lng s))) /\
  (forall query, sessionInvariant (snd (searchLocationsByText G query s))).
Proof.
  intros H. split.
  - unfold sessionInvariant in H. rewrite H. destruct (mapInstance s); auto.
  - repeat split; intros.
    + now apply preserves_searchNearbyRestaurants.
    + now apply preserves_searchPlacesByText.
    + now apply preserves_getPlaceDetails.
    + now apply preserves_enhance.
    + now apply preserves_enhanceAll.
    + now apply preserves_reverseGeocode.
    + now apply preserves_searchLocationsByText.
Qed.

(** X2, witness: a nearby search and then the enrichment of a restaurant,
    from the initial store. *)
Lemma operations_keep_session_witness :
  let s1 := snd (@searchNearbyRestaurants Sample.runtime Sample.withDetails
                   Sample.toronto 2000 "restaurant" Sample.store0) in
  let s2 := snd (@enhanceRestaurantWithPhotos Sample.runtime Sample.withDetails
                   Sample.unenriched s1) in
  sessionInvariant s2 /\ createdMaps s2 = 1%nat.
Proof.
  cbv zeta. split; [|reflexivity].
  apply (operations_keep_session Sample.runtime Sample.withDetails).
  apply (operations_keep_session Sample.runtime Sample.withDetails Sample.store0).
  reflexivity.
Defined.

Section Unavailable.
Context {RT : Runtime}.
Variable G : GoogleSDK.
Hypothesis unavailable : sdkAvailable G = false.

Lemma unavailable_bind {A} (k : unit -> Async A) :
  endsWithoutSDK G (bind (initializeGoogleMapsService G) k).
Proof.
  intros s. unfold bind. rewrite (initialize_unavailable G s unavailable).
  unfold failedInitialization.
  destruct (JS.truthy_ostr GOOGLE_MAPS_API_KEY); cbn [negb].
  - split; [discriminate|]. destruct (scriptTag s).
    + split; [reflexivity|discriminate].
    + split; [discriminate|]. intros _ _. now destruct (scriptLoad G).
  - split; [reflexivity|]. split; discriminate.
Qed.

End Unavailable.

(** X3. Without the SDK (it is not in the page, and its script does not
    arrive or there is no key to ask with), the two searches, the details,
    the reverse geocoding and the location search end where the
    initialization does, and no query is issued. Without the key each call
    rejects with the error of the initialization and leaves the store as it
    was. With the key, a call that finds no script of the SDK in the document
    appends it, and rejects when the script errors or stays pending when
    nothing fires; a call that finds the script there stays pending: the load
    is not tried again. *)
Theorem without_sdk_no_query (RT : Runtime) (G : GoogleSDK) :
  sdkAvailable G = false ->
  (forall location radius type,
     endsWithoutSDK G (searchNearbyRestaurants G location radius type)) /\
  (forall query location radius,
     endsWithoutSDK G (searchPlacesByText G query location radius)) /\
  (forall placeId, endsWithoutSDK G (getPlaceDetails G placeId)) /\
  (forall lat lng, endsWithoutSDK G (reverseGeocode G lat lng)) /\
  (forall query, endsWithoutSDK G (searchLocationsByText G query)).
Proof.
  intros A. repeat split; intros; now apply unavailable_bind.
Qed.

(** X3, witness: the script of the SDK errors. A text search appends it and
    rejects; the location search that follows never settles. *)
Lemma without_sdk_no_query_witness :
  let s1 := {| mapInstance := false; scriptTag := true; trace := [] |} in
  @searchPlacesByText Sample.runtime Sample.notLoaded "sushi" None None Sample.store0
    = (Rejected (Error "Google Maps API failed to load"), s1) /\
  @searchLocationsByText Sample.runtime Sample.notLoaded "Toronto" s1 = (Pending, s1).
Proof.
  destruct (without_sdk_no_query Sample.runtime Sample.notLoaded eq_refl)
    as [_ [text [_ [_ locations]]]].
  split.
  - exact (proj2 (proj2 (text "sushi" None None Sample.store0)) eq_refl eq_refl).
  - exact (proj1 (proj2 (locations "Toronto"
                           {| mapInstance := false; scriptTag := true; trace := [] |}))
             eq_refl eq_refl).
Defined.

(** ** Where the entities of a search come from *)

Section Provenance.
Context {RT : Runtime}.
Variable G : GoogleSDK.

Lemma map_throwing_image {A B} (f : A -> Exn + B) l bs :
  map_throwing f l = inr bs -> Forall (fun b => exists a, f a = inr b) bs.
Proof.
  revert bs. induction l as [|a l IH]; intros bs; cbn [map_throwing].
  - intros [= <-]. constructor.
  - destruct (f a) as [e|b] eqn:Fa; [discriminate|].
    destruct (map_throwing f l) as [e|bs']; [discriminate|].
    intros [= <-]. constructor; eauto.
Qed.

Lemma map_image {A B} (f : A -> B) l : Forall (fun b => exists a, b = f a) (map f l).
Proof. induction l; cbn [map]; constructor; eauto. Qed.

(** An entity of a nearby search was built from a place of one of the two
    shapes. *)
Lemma searchNearby_provenance location radius type s restaurants :
  fst (searchNearbyRestaurants G location radius type s) = Resolved restaurants ->
  Forall (fun r => (exists place, restaurantOfNearbyPlace location place = inr r) \/
                   (exists place, r = restaurantOfNearbyResult location place))
    restaurants.
Proof.
  unfold searchNearbyRestaurants. unfold_async.
  destruct (initializeGoogleMapsService G s) as [[[]|e0|] s1];
    [|discriminate|discriminate].
  destruct (nearbySearch G (center location) radius type) as [results status].
  assert (forall t,
            fst ((if String.eqb status Status_OK
                  then fun s2 : Store =>
                         (Resolved (map (restaurantOfNearbyResult location) results), s2)
                  else fun s2 : Store =>
                         (Rejected (Error ("Places API error: " ++ status)), s2)) t)
              = Resolved restaurants ->
            Forall (fun r => (exists place, restaurantOfNearbyPlace location place = inr r) \/
                             (exists place, r = restaurantOfNearbyResult location place))
              restaurants) as Legacy.
  { intros t. destruct (String.eqb status Status_OK); cbn [fst]; [|discriminate].
    intros [= <-]. eapply Forall_impl; [|apply map_image]. intros r H. now right. }
  destruct (Place_searchNearby G) as [f|]; [|apply Legacy].
  destruct (f (center location) radius) as [e|places]; [apply Legacy|].
  destruct (map_throwing (restaurantOfNearbyPlace location) (orEmpty places))
    as [e|built] eqn:M; [apply Legacy|].
  cbn [fst]. intros [= <-].
  eapply Forall_impl; [|exact (map_throwing_image _ _ _ M)]. intros r H. now left.
Qed.

(** The same for a text search. *)
Lemma searchByText_provenance query location radius s restaurants :
  fst (searchPlacesByText G query location radius s) = Resolved restaurants ->
  Forall (fun r => (exists place, restaurantOfTextPlace location place = inr r) \/
                   (exists place, r = restaurantOfTextResult location place))
    restaurants.
Proof.
  unfold searchPlacesByText. unfold_async.
  destruct (initializeGoogleMapsService G s) as [[[]|e0|] s1];
    [|discriminate|discriminate].
  destruct (textSearch G query _) as [results status].
  assert (forall t,
            fst ((if String.eqb status Status_OK
                  then fun s2 : Store =>
                         (Resolved (map (restaurantOfTextResult location) results), s2)
                  else if String.eqb status Status_ZERO_RESULTS
                  then fun s2 : Store => (Resolved [], s2)
                  else fun s2 : Store =>
                         (Rejected (Error ("Text Search API error: " ++ status)), s2)) t)
              = Resolved restaurants ->
            Forall (fun r => (exists place, restaurantOfTextPlace location place = inr r) \/
                             (exists place, r = restaurantOfTextResult location place))
              restaurants) as Legacy.
  { intros t. destruct (String.eqb status Status_OK); cbn [fst].
    - intros [= <-]. eapply Forall_impl; [|apply map_image]. intros r H. now right.
    - destruct (String.eqb status Status_ZERO_RESULTS); cbn [fst]; [|discriminate].
      intros [= <-]. constructor. }
  destruct (Place_searchByText G) as [f|]; [|apply Legacy].
  destruct (f query _) as [e|places]; [apply Legacy|].
  destruct (map_throwing (restaurantOfTextPlace location) (orEmpty places))
    as [e|built] eqn:M; [apply Legacy|].
  cbn [fst]. intros [= <-].
  eapply Forall_impl; [|exact (map_throwing_image _ _ _ M)]. intros r H. now left.
Qed.

End Provenance.

(** ** Text search *)

Section TextSearch.
Context {RT : Runtime}.
Variable G : GoogleSDK.

(** The legacy branch of the text search, once the [try] block is left by a
    [throw] or without a [return]. *)
Lemma searchByText_legacy query location radius s results status :
  loaded G = true ->
  (Place_searchByText G = None \/
   exists f e, Place_searchByText G = Some f /\
     (f query (option_map (fun l => (center l, JS.num_or radius 50000%float)) location)
        = inl e \/
      exists places,
        f query (option_map (fun l => (center l, JS.num_or radius 50000%float)) location)
          = inr places /\
        map_throwing (restaurantOfTextPlace location) (orEmpty places) = inl e)) ->
  textSearch G query
    (option_map (fun l => (center l, if JS.truthy_onum radius then radius else None))
       location) = (results, status) ->
  let run := searchPlacesByText G query location radius s in
  fst run =
    (if String.eqb status Status_OK
     then Resolved (map (restaurantOfTextResult location) results)
     else if String.eqb status Status_ZERO_RESULTS
     then Resolved []
     else Rejected (Error ("Text Search API error: " ++ status))) /\
  In (TextSearch query) (trace (snd run)).
Proof.
  intros L N Q. cbv zeta.
  destruct (initialize_loaded G s L) as [s1 [E _]].
  unfold searchPlacesByText. unfold_async. rewrite E.
  destruct N as [N|[f [e [N [T|[places [T M]]]]]]]; rewrite N, ?T; cbv beta iota;
    rewrite ?M, Q;
    destruct (String.eqb status Status_OK);
    [| destruct (String.eqb status Status_ZERO_RESULTS) | |
       destruct (String.eqb status Status_ZERO_RESULTS) | |
       destruct (String.eqb status Status_ZERO_RESULTS)];
    cbn [fst snd trace];
    (split; [reflexivity| apply in_or_app; right; now left]).
Qed.

End TextSearch.

(** X4. Fallback of the text search. With the SDK loaded, when the entry
    point of the new shape is missing, or its call throws, or building an
    entity from one of its places throws, the legacy text search is issued
    for the same query, biased to the caller's location when there is one;
    the status [OK] gives one entity per legacy result, in order, with the
    fields below, [ZERO_RESULTS] gives the empty sequence, and any other
    status rejects with an error that names it. *)
Theorem searchByText_falls_back_to_legacy (RT : Runtime) (G : GoogleSDK)
    (query : string) (location : option UserLocation.t) (radius : option float)
    (s : Store) (results : list GooglePlaceResult.t) (status : string) :
  let centre (l : UserLocation.t) :=
    {| lat := UserLocation.lat l; lng := UserLocation.lng l |} in
  loaded G = true ->
  (Place_searchByText G = None \/
   exists f e, Place_searchByText G = Some f /\
     (f query (option_map (fun l => (centre l, JS.num_or radius 50000%float)) location)
        = inl e \/
      exists places,
        f query (option_map (fun l => (centre l, JS.num_or radius 50000%float)) location)
          = inr places /\
        map_throwing (restaurantOfTextPlace location) (orEmpty places) = inl e)) ->
  textSearch G query
    (option_map (fun l => (centre l, if JS.truthy_onum radius then radius else None))
       location) = (results, status) ->
  let run := searchPlacesByText G query location radius s in
  In (TextSearch query) (trace (snd run)) /\
  (status = Status_OK ->
   exists entities,
     fst run = Resolved entities /\
     Forall2
       (fun place r =>
          Restaurant.id r = Some (GooglePlaceResult.place_id place) /\
          Restaurant.name r = GooglePlaceResult.name place /\
          Restaurant.rating r =
            match GooglePlaceResult.rating place with
            | Some v => if PrimFloat.is_nan v || PrimFloat.is_zero v then 0 else v
            | None => 0
            end%float /\
          Restaurant.address r =
            match GooglePlaceResult.formatted_address place with
            | Some v => v
            | None => ""
            end /\
          Restaurant.coordinates r = GooglePlaceResult.location place /\
          Restaurant.cuisine r = mapCuisineType (GooglePlaceResult.types place) /\
          Restaurant.priceLevel r =
            match GooglePlaceResult.price_level place with
            | Some v => if PrimFloat.is_nan v || PrimFloat.is_zero v then 2 else v
            | None => 2
            end%float /\
          Restaurant.image r = getBestRestaurantImage (GooglePlaceResult.photos place) /\
          Restaurant.distance r =
            match location with
            | Some l =>
                calculateDistance (UserLocation.lat l) (UserLocation.lng l)
                  (lat (GooglePlaceResult.location place))
                  (lng (GooglePlaceResult.location place))
            | None => 0%float
            end /\
          Restaurant.photoAttributions r = [])
       results entities) /\
  (status = Status_ZERO_RESULTS -> fst run = Resolved []) /\
  (status <> Status_OK -> status <> Status_ZERO_RESULTS ->
   fst run = Rejected (Error ("Text Search API error: " ++ status))).
Proof.
  intros centre L N Q.
  destruct (searchByText_legacy G query location radius s results status L N Q) as [O T].
  cbv zeta in *. split; [exact T|]. rewrite O. split; [|split].
  - intros H. rewrite H. eexists. split; [reflexivity|].
    clear. induction results as [|place rest IH]; cbn [map]; constructor; [|exact IH].
    destruct place as [pid pname vicinity address [plat plng] rating price types photos
                         hours phone website].
    cbn. repeat split.
    + now destruct rating as [v|]; [apply num_or_spelled|].
    + now destruct address as [v|]; [apply str_or_empty|].
    + now destruct price as [v|]; [apply num_or_spelled|].
  - intros H. now rewrite H.
  - intros H1 H2. apply String.eqb_neq in H1, H2. now rewrite H1, H2.
Qed.

(** X4, witness: no entry point of the new shape, and a legacy search that
    finds nothing. *)
Lemma searchByText_falls_back_to_legacy_witness :
  let run := @searchPlacesByText Sample.runtime (Sample.legacyOnly "ZERO_RESULTS" [])
               "sushi" (Some Sample.toronto) None Sample.store0 in
  In (TextSearch "sushi") (trace (snd run)) /\ fst run = Resolved [].
Proof.
  cbv zeta.
  destruct (searchByText_falls_back_to_legacy Sample.runtime
              (Sample.legacyOnly "ZERO_RESULTS" []) "sushi" (Some Sample.toronto) None
              Sample.store0 [] "ZERO_RESULTS" eq_refl (or_introl eq_refl) eq_refl)
    as [issued [_ [zero _]]].
  split; [exact issued | now apply zero].
Defined.

Section Entities.
Context {RT : Runtime}.
Local Open Scope float_scope.

Lemma num_or_truthy x d : JS.truthy_num d = true -> JS.truthy_num (JS.num_or x d) = true.
Proof.
  intros D. unfold JS.num_or. destruct x as [v|]; [|exact D].
  destruct (JS.truthy_num v) eqn:V; [exact V | exact D].
Qed.

Lemma num_or_not_nan x d : is_nan d = false -> is_nan (JS.num_or x d) = false.
Proof.
  intros D. unfold JS.num_or. destruct x as [v|]; [|exact D].
  destruct (JS.truthy_num v) eqn:V; [|exact D].
  unfold JS.truthy_num in V. apply negb_true_iff, orb_false_iff in V. tauto.
Qed.

Lemma restaurantOfNearbyPlace_defaulted location place r :
  restaurantOfNearbyPlace location place = inr r -> defaulted r.
Proof.
  unfold restaurantOfNearbyPlace. destruct (Place.location place); [|discriminate].
  intros [= <-]. split; cbn [Restaurant.priceLevel Restaurant.rating].
  - now apply num_or_truthy.
  - now apply num_or_not_nan.
Qed.

Lemma restaurantOfTextPlace_defaulted location place r :
  restaurantOfTextPlace location place = inr r -> defaulted r.
Proof.
  unfold restaurantOfTextPlace. destruct (Place.location place); [|discriminate].
  intros [= <-]. split; cbn [Restaurant.priceLevel Restaurant.rating].
  - now apply num_or_truthy.
  - now apply num_or_not_nan.
Qed.

Lemma restaurantOfNearbyResult_defaulted location place :
  defaulted (restaurantOfNearbyResult location place).
Proof.
  split; cbn [restaurantOfNearbyResult Restaurant.priceLevel Restaurant.rating].
  - now apply num_or_truthy.
  - now apply num_or_not_nan.
Qed.

Lemma restaurantOfTextResult_defaulted location place :
  defaulted (restaurantOfTextResult location place).
Proof.
  split; cbn [restaurantOfTextResult Restaurant.priceLevel Restaurant.rating].
  - now apply num_or_truthy.
  - now apply num_or_not_nan.
Qed.

End Entities.

(** X5. A text search without a location gives every entity the distance
    zero, through either shape. *)
Theorem searchByText_without_location_distance_zero (RT : Runtime) (G : GoogleSDK)
    (query : string) (radius : option float) (s : Store)
    (restaurants : list Restaurant.t) :
  fst (searchPlacesByText G query None radius s) = Resolved restaurants ->
  Forall (fun r => Restaurant.distance r = 0%float) restaurants.
Proof.
  intros H. apply searchByText_provenance in H.
  eapply Forall_impl; [|exact H]. intros r [[place P]|[place ->]].
  - unfold restaurantOfTextPlace in P. destruct (Place.location place); [|discriminate].
    now injection P as <-.
  - reflexivity.
Qed.

(** X5, witness: one place of the new shape. *)
Lemma searchByText_without_location_distance_zero_witness :
  exists r,
    fst (@searchPlacesByText Sample.runtime
           (Sample.newShape (Some [Sample.nameless]) "OK" [])
           "sushi" None None Sample.store0) = Resolved [r] /\
    Restaurant.distance r = 0%float.
Proof.
  eexists. split; [reflexivity|].
  exact (Forall_inv
           (searchByText_without_location_distance_zero Sample.runtime
              (Sample.newShape (Some [Sample.nameless]) "OK" [])
              "sushi" None Sample.store0 _ eq_refl)).
Defined.

(** X6. The numbers of the entities of a search. Every entity of a nearby
    search or of a text search, through either shape, has a price level that
    is neither zero nor [NaN] and a rating that is not [NaN]. They are the
    provider's price level and rating of the place the entity is built from
    when such a number is there that is neither zero nor [NaN], and 2 and 0
    otherwise: through the new shape, and through the legacy shape when there
    is no entry point of the new one. *)
Theorem search_entities_have_defaults (RT : Runtime) (G : GoogleSDK) (s : Store)
    (restaurants : list Restaurant.t) :
  (forall location radius type,
     fst (searchNearbyRestaurants G location radius type s) = Resolved restaurants ->
     Forall defaulted restaurants) /\
  (forall query location radius,
     fst (searchPlacesByText G query location radius s) = Resolved restaurants ->
     Forall defaulted restaurants) /\
  (forall location radius type f places,
     loaded G = true ->
     Place_searchNearby G = Some f ->
     f (center location) radius = inr places ->
     fst (searchNearbyRestaurants G location radius type s) = Resolved restaurants ->
     Forall2
       (fun place r =>
          Restaurant.priceLevel r =
            match Place.priceLevel place with
            | Some v => if PrimFloat.is_nan v || PrimFloat.is_zero v then 2 else v
            | None => 2
            end%float /\
          Restaurant.rating r =
            match Place.rating place with
            | Some v => if PrimFloat.is_nan v || PrimFloat.is_zero v then 0 else v
            | None => 0
            end%float)
       (orEmpty places) restaurants \/
     exists e, map_throwing (restaurantOfNearbyPlace location) (orEmpty places) = inl e) /\
  (forall query location radius f places,
     loaded G = true ->
     Place_searchByText G = Some f ->
     f query (option_map (fun l => (center l, JS.num_or radius 50000%float)) location)
       = inr places ->
     fst (searchPlacesByText G query location radius s) = Resolved restaurants ->
     Forall2
       (fun place r =>
          Restaurant.priceLevel r =
            match Place.priceLevel place with
            | Some v => if PrimFloat.is_nan v || PrimFloat.is_zero v then 2 else v
            | None => 2
            end%float /\
          Restaurant.rating r =
            match Place.rating place with
            | Some v => if PrimFloat.is_nan v || PrimFloat.is_zero v then 0 else v
            | None => 0
            end%float)
       (orEmpty places) restaurants \/
     exists e, map_throwing (restaurantOfTextPlace location) (orEmpty places) = inl e) /\
  (forall location radius type results,
     loaded G = true ->
     Place_searchNearby G = None ->
     nearbySearch G (center location) radius type = (results, Status_OK) ->
     fst (searchNearbyRestaurants G location radius type s) = Resolved restaurants ->
     Forall2
       (fun place r =>
          Restaurant.priceLevel r =
            match GooglePlaceResult.price_level place with
            | Some v => if PrimFloat.is_nan v || PrimFloat.is_zero v then 2 else v
            | None => 2
            end%float /\
          Restaurant.rating r =
            match GooglePlaceResult.rating place with
            | Some v => if PrimFloat.is_nan v || PrimFloat.is_zero v then 0 else v
            | None => 0
            end%float)
       results restaurants) /\
  (forall query location radius results,
     loaded G = true ->
     Place_searchByText G = None ->
     textSearch G query
       (option_map (fun l => (center l, if JS.truthy_onum radius then radius else None))
          location) = (results, Status_OK) ->
     fst (searchPlacesByText G query location radius s) = Resolved restaurants ->
     Forall2
       (fun place r =>
          Restaurant.priceLevel r =
            match GooglePlaceResult.price_level place with
            | Some v => if PrimFloat.is_nan v || PrimFloat.is_zero v then 2 else v
            | None => 2
            end%float /\
          Restaurant.rating r =
            match GooglePlaceResult.rating place with
            | Some v => if PrimFloat.is_nan v || PrimFloat.is_zero v then 0 else v
            | None => 0
            end%float)
       results restaurants).
Proof.
  split; [|split; [|split; [|split; [|split]]]].
  - intros location radius type H. apply searchNearby_provenance in H.
    eapply Forall_impl; [|exact H]. intros r [[place P]|[place ->]].
    + exact (restaurantOfNearbyPlace_defaulted _ _ _ P).
    + apply restaurantOfNearbyResult_defaulted.
  - intros query location radius H. apply searchByText_provenance in H.
    eapply Forall_impl; [|exact H]. intros r [[place P]|[place ->]].
    + exact (restaurantOfTextPlace_defaulted _ _ _ P).
    + apply restaurantOfTextResult_defaulted.
  - intros location radius type f places L N Q R.
    destruct (map_throwing (restaurantOfNearbyPlace location) (orEmpty places))
      as [e|built] eqn:M; [right; now exists e|left].
    rewrite (searchNearby_new_shape G location radius type s f places built L N Q M) in R.
    injection R as <-. apply map_throwing_Forall2 in M.
    eapply Forall2_impl; [|exact M]. intros place r P.
    unfold restaurantOfNearbyPlace in P. destruct (Place.location place); [|discriminate].
    injection P as <-. cbn [Restaurant.priceLevel Restaurant.rating].
    split; [destruct (Place.priceLevel place) | destruct (Place.rating place)];
      try reflexivity; apply num_or_spelled.
  - intros query location radius f places L N Q R.
    destruct (map_throwing (restaurantOfTextPlace location) (orEmpty places))
      as [e|built] eqn:M; [right; now exists e|left].
    rewrite (searchByText_new_shape G query location radius s f places built L N Q M) in R.
    injection R as <-. apply map_throwing_Forall2 in M.
    eapply Forall2_impl; [|exact M]. intros place r P.
    unfold restaurantOfTextPlace in P. destruct (Place.location place); [|discriminate].
    injection P as <-. cbn [Restaurant.priceLevel Restaurant.rating].
    split; [destruct (Place.priceLevel place) | destruct (Place.rating place)];
      try reflexivity; apply num_or_spelled.
  - intros location radius type results L N Q R.
    destruct (searchNearby_legacy G location radius type s results Status_OK
                L (or_introl N) Q) as [O _].
    cbv zeta in O. rewrite O in R. cbn [String.eqb Ascii.eqb Bool.eqb Status_OK] in R.
    injection R as <-. clear.
    induction results as [|place rest IH]; cbn [map]; constructor; [|exact IH].
    cbn [restaurantOfNearbyResult Restaurant.priceLevel Restaurant.rating].
    split; [destruct (GooglePlaceResult.price_level place)
           | destruct (GooglePlaceResult.rating place)];
      try reflexivity; apply num_or_spelled.
  - intros query location radius results L N Q R.
    destruct (searchByText_legacy G query location radius s results Status_OK
                L (or_introl N) Q) as [O _].
    cbv zeta in O. rewrite O in R. cbn [String.eqb Ascii.eqb Bool.eqb Status_OK] in R.
    injection R as <-. clear.
    induction results as [|place rest IH]; cbn [map]; constructor; [|exact IH].
    cbn [restaurantOfTextResult Restaurant.priceLevel Restaurant.rating].
    split; [destruct (GooglePlaceResult.price_level place)
           | destruct (GooglePlaceResult.rating place)];
      try reflexivity; apply num_or_spelled.
Qed.

(** X6, witness: a legacy result without rating and price level. *)
Lemma search_entities_have_defaults_witness :
  Forall defaulted
    [@restaurantOfNearbyResult Sample.runtime Sample.toronto
       (Sample.result "p1" "Cafe" ["cafe"])].
Proof.
  exact (proj1 (search_entities_have_defaults Sample.runtime
                  (Sample.legacyOnly "OK" [Sample.result "p1" "Cafe" ["cafe"]])
                  Sample.store0 _)
           Sample.toronto 2000%float "restaurant" eq_refl).
Defined.

(** ** Place details *)

Section Details.
Context {RT : Runtime}.
Variable G : GoogleSDK.

Lemma getPlaceDetails_new_shape placeId s f place :
  loaded G = true ->
  Place_fetchFields G = Some f ->
  f placeId = inr place ->
  fst (getPlaceDetails G placeId s) = Resolved (detailsOfFetched placeId place).
Proof.
  intros L N Q. destruct (initialize_loaded G s L) as [s1 [E _]].
  unfold getPlaceDetails. unfold_async. now rewrite E, N, Q.
Qed.


Lemma ostr_or_truthy_r x y :
  JS.truthy_ostr y = true -> JS.truthy_ostr (JS.ostr_or x y) = true.
Proof. intros H. unfold JS.ostr_or. now destruct (JS.truthy_ostr x) eqn:X. Qed.

(** The photos of the details built from a place of the new shape. *)
Lemma detailsOfFetched_photos placeId place :
  exists photos,
    RestaurantDetails.photos (detailsOfFetched placeId place) = Some photos /\
    Forall (fun photo =>
              JS.usable (Photo.photo_reference photo) = true /\
              Photo.attributions photo <> None) photos.
Proof.
  unfold detailsOfFetched. cbn [RestaurantDetails.photos].
  destruct (PlaceDg.photos _) as [given|]; eexists; (split; [reflexivity|]).
  - induction given as [|photo given IH]; cbn [filter map]; [constructor|].
    destruct (JS.usable (Photo.name photo)) eqn:U; [|exact IH].
    cbn [map]. constructor; [|exact IH].
    split; [exact U | discriminate].
  - constructor.
Qed.

End Details.

(** X7. The details of a place fetched through the new shape: the call
    resolves with them; their photo sequence is always there, and each of its
    entries carries a reference that is a string with more than white space,
    and a sequence of attributions; their name is not empty; and their place
    identifier is not empty when the identifier asked for is not. *)
Theorem getPlaceDetails_new_shape_details (RT : Runtime) (G : GoogleSDK)
    (placeId : option string)
    (s : Store) (f : option string -> Exn + FetchedPlace.t) (place : FetchedPlace.t) :
  loaded G = true ->
  Place_fetchFields G = Some f ->
  f placeId = inr place ->
  exists details photos,
    fst (getPlaceDetails G placeId s) = Resolved details /\
    RestaurantDetails.photos details = Some photos /\
    Forall (fun photo =>
              JS.usable (Photo.photo_reference photo) = true /\
              Photo.attributions photo <> None) photos /\
    RestaurantDetails.name details <> "" /\
    (JS.truthy_ostr placeId = true ->
     JS.truthy_ostr (RestaurantDetails.place_id details) = true).
Proof.
  intros L N Q.
  destruct (detailsOfFetched_photos placeId place) as [photos [P F]].
  exists (detailsOfFetched placeId place), photos.
  split; [now apply (getPlaceDetails_new_shape G placeId s f)|].
  split; [exact P|]. split; [exact F|]. split.
  - cbn [detailsOfFetched RestaurantDetails.name]. apply str_or_nonempty. discriminate.
  - cbn [detailsOfFetched RestaurantDetails.place_id]. apply ostr_or_truthy_r.
Qed.

(** X7, witness: the place with one photo. *)
Lemma getPlaceDetails_new_shape_details_witness :
  exists details,
    fst (@getPlaceDetails Sample.runtime Sample.withDetails (Some "p1") Sample.store0)
      = Resolved details /\
    RestaurantDetails.photos details = Some [Sample.detailsPhoto].
Proof.
  destruct (getPlaceDetails_new_shape_details Sample.runtime Sample.withDetails
              (Some "p1") Sample.store0 _ _ eq_refl eq_refl eq_refl)
    as [details [photos [R _]]].
  exists details. split; [exact R|].
  cbv in R. injection R as <-. reflexivity.
Defined.



(** ** The order of binary64 *)

Module FloatOrder.

Local Open Scope Z_scope.

Lemma compareKeys_Lt a b :
  compareKeys a b = Lt <->
  fst (fst a) < fst (fst b) \/
  (fst (fst a) = fst (fst b) /\
   (snd (fst a) < snd (fst b) \/ (snd (fst a) = snd (fst b) /\ snd a < snd b))).
Proof.
  unfold compareKeys.
  destruct (Z.compare_spec (fst (fst a)) (fst (fst b))) as [E1|L1|G1].
  - destruct (Z.compare_spec (snd (fst a)) (snd (fst b))) as [E2|L2|G2].
    + rewrite Z.compare_lt_iff. lia.
    + split; [lia | reflexivity].
    + split; [discriminate | lia].
  - split; [lia | reflexivity].
  - split; [discriminate | lia].
Qed.

Lemma compareKeys_Lt_trans a b c :
  compareKeys a b = Lt -> compareKeys b c = Lt -> compareKeys a c = Lt.
Proof. rewrite !compareKeys_Lt. lia. Qed.

(** [SFcompare] is the order of the keys. *)
Lemma SFcompare_orderKey x y :
  x <> S754_nan -> y <> S754_nan ->
  SFcompare x y = Some (compareKeys (orderKey x) (orderKey y)).
Proof.
  intros Hx Hy.
  destruct x as [sx|sx| |sx mx ex], y as [sy|sy| |sy my ey];
    try congruence; clear Hx Hy;
    try (destruct sx; reflexivity); try (destruct sy; reflexivity);
    try (destruct sx, sy; reflexivity).
  cbn [SFcompare]. rewrite Pos.compare_cont_spec.
  destruct sx, sy; unfold compareKeys; cbn [orderKey fst snd]; try reflexivity.
  - change (-1 ?= -1) with Eq. cbv iota.
    rewrite Z.compare_opp, (Z.compare_antisym ex ey). cbn [Z.compare].
    destruct (ex ?= ey); cbn [CompOpp]; try reflexivity.
    now destruct (mx ?= my)%positive.
  - change (1 ?= 1) with Eq. cbv iota. cbn [Z.compare].
    destruct (ex ?= ey); try reflexivity.
    now destruct (mx ?= my)%positive.
Qed.

Lemma SFltb_not_nan x y : SFltb x y = true -> x <> S754_nan /\ y <> S754_nan.
Proof.
  unfold SFltb. destruct x, y; cbn [SFcompare]; try discriminate;
    intros _; split; discriminate.
Qed.

Local Open Scope float_scope.

Lemma ltb_trans a b c : (a <? b) = true -> (b <? c) = true -> (a <? c) = true.
Proof.
  rewrite !ltb_spec. intros H1 H2.
  destruct (SFltb_not_nan _ _ H1) as [Na Nb].
  destruct (SFltb_not_nan _ _ H2) as [_ Nc].
  unfold SFltb in *.
  rewrite SFcompare_orderKey in * by assumption.
  destruct (compareKeys (orderKey (Prim2SF a)) (orderKey (Prim2SF b))) eqn:E1;
    try discriminate.
  destruct (compareKeys (orderKey (Prim2SF b)) (orderKey (Prim2SF c))) eqn:E2;
    try discriminate.
  now rewrite (compareKeys_Lt_trans _ _ _ E1 E2).
Qed.

Lemma ltb_irrefl a : (a <? a) = false.
Proof.
  rewrite ltb_spec. unfold SFltb.
  pose proof (FloatFacts.SFcompare_swap (Prim2SF a) (Prim2SF a)) as S.
  destruct (SFcompare (Prim2SF a) (Prim2SF a)) as [[]|]; try reflexivity.
  discriminate S.
Qed.

End FloatOrder.

(** ** Photo selection and image URLs *)

Section Selection.
Local Open Scope float_scope.
Import FloatOrder.

Lemma scan_member photos : forall start,
  fold_left scanPhoto photos start = start \/
  (In (fold_left scanPhoto photos start) photos /\
   landscape (fold_left scanPhoto photos start) = true).
Proof.
  induction photos as [|photo photos IH]; intros start; cbn [fold_left]; [now left|].
  destruct (scanPhoto_cases start photo) as [[E _]|[E La]]; rewrite E.
  - destruct (IH start) as [F|[I La]]; [now left | right]. split; [now right | exact La].
  - right. destruct (IH photo) as [F|[I Lb]].
    + rewrite F. split; [now left | exact La].
    + split; [now right | exact Lb].
Qed.

(** The area of [bestPhoto] never goes down along the loop. *)
Lemma scan_not_below photos : forall start v,
  (photoSize start <? v) = false ->
  (photoSize (fold_left scanPhoto photos start) <? v) = false.
Proof.
  induction photos as [|photo photos IH]; intros start v H; cbn [fold_left]; [exact H|].
  apply IH. unfold scanPhoto.
  destruct ((photoWidth photo =? 0) || (photoHeight photo =? 0)); [exact H|].
  destruct ((1.2 <=? photoWidth photo / photoHeight photo)
            && (photoWidth photo / photoHeight photo <=? 2.0)); cbn [andb]; [|exact H].
  fold (photoSize start) (photoSize photo).
  destruct (photoSize start <? photoSize photo) eqn:T; [|exact H].
  destruct (photoSize photo <? v) eqn:V; [|reflexivity].
  rewrite (ltb_trans _ _ _ T V) in H. discriminate.
Qed.

Lemma scan_maximal photos : forall start q,
  In q photos -> landscape q = true ->
  (photoSize (fold_left scanPhoto photos start) <? photoSize q) = false.
Proof.
  induction photos as [|photo photos IH]; intros start q []; cbn [fold_left].
  - subst photo. intros La. apply scan_not_below.
    destruct (scanPhoto_cases start q) as [[E K]|[E _]]; rewrite E.
    + now apply K.
    + apply ltb_irrefl.
  - now apply IH.
Qed.

End Selection.

(** X9. The photo the scan selects is one of the sequence: the first one,
    or a landscape one (no zero dimension, ratio in [[1.2, 2.0]]). Nothing is
    selected only when the sequence is missing or empty. *)
Theorem selectBestPhoto_is_first_or_landscape (photos : option (list Photo.t)) :
  (selectBestPhoto photos = None <-> photos = None \/ photos = Some []) /\
  (forall best,
     selectBestPhoto photos = Some best ->
     exists first rest,
       photos = Some (first :: rest) /\
       In best (first :: rest) /\
       (best = first \/ landscape best = true)).
Proof.
  split.
  - destruct photos as [[|first rest]|]; cbn [selectBestPhoto]; split; auto;
      try discriminate.
    intros [H|H]; discriminate.
  - intros best. destruct photos as [[|first rest]|]; cbn [selectBestPhoto];
      try discriminate.
    intros H. assert (fold_left scanPhoto (first :: rest) first = best) as S
      by congruence.
    exists first, rest. split; [reflexivity|].
    destruct (scan_member (first :: rest) first) as [F|[I La]]; rewrite S in *.
    + subst best. split; [now left | now left].
    + split; [exact I | now right].
Qed.

(** X9, witness: the second of three photos is selected. *)
Lemma selectBestPhoto_is_first_or_landscape_witness :
  let photos := [Sample.photo "a" 100 200; Sample.photo "b" 400 300;
                 Sample.photo "c" 200 150] in
  In (Sample.photo "b" 400 300) photos /\
  (Sample.photo "b" 400 300 = Sample.photo "a" 100 200 \/
   landscape (Sample.photo "b" 400 300) = true).
Proof.
  cbv zeta.
  destruct (proj2 (selectBestPhoto_is_first_or_landscape
                     (Some [Sample.photo "a" 100 200; Sample.photo "b" 400 300;
                            Sample.photo "c" 200 150]))
              (Sample.photo "b" 400 300) eq_refl)
    as [first [rest [E [I K]]]].
  injection E as <- <-. split; [exact I | exact K].
Defined.

(** X10. No landscape photo of the sequence has a strictly larger area than
    the photo the scan selects. *)
Theorem selectBestPhoto_no_larger_landscape (photos : list Photo.t)
    (best q : Photo.t) :
  selectBestPhoto (Some photos) = Some best ->
  In q photos -> landscape q = true ->
  (photoSize best <? photoSize q)%float = false.
Proof.
  destruct photos as [|first rest]; [discriminate|].
  unfold selectBestPhoto. intros S I La.
  assert (fold_left scanPhoto (first :: rest) first = best) as <- by congruence.
  now apply scan_maximal.
Qed.

(** X10, witness: three landscape photos, the largest in the middle. *)
Lemma selectBestPhoto_no_larger_landscape_witness :
  (photoSize (Sample.photo "b" 800 600) <? photoSize (Sample.photo "c" 640 480))%float
  = false.
Proof.
  apply (selectBestPhoto_no_larger_landscape
           [Sample.photo "a" 400 300; Sample.photo "b" 800 600;
            Sample.photo "c" 640 480]).
  - reflexivity.
  - right. right. left. reflexivity.
  - reflexivity.
Defined.

Section NoKey.
Context {RT : Runtime}.
Hypothesis noKey : JS.truthy_ostr GOOGLE_MAPS_API_KEY = false.

Lemma getPlacePhotoUrl_no_key reference width height :
  getPlacePhotoUrl reference width height = "/placeholder.svg".
Proof. unfold getPlacePhotoUrl. now rewrite noKey. Qed.

Lemma getBestRestaurantImage_no_key photos :
  getBestRestaurantImage photos = "/placeholder.svg".
Proof.
  unfold getBestRestaurantImage. destruct (selectBestPhoto photos); [|reflexivity].
  destruct (JS.truthy_ostr (JS.ostr_or _ _));
    [apply getPlacePhotoUrl_no_key | reflexivity].
Qed.

End NoKey.

(** X11. Without the API key every URL of a photo is the placeholder: that
    of [getPlacePhotoUrl], that of [getBestRestaurantImage], the four of
    [getRestaurantImages] and that of [getRestaurantImageWithFallback]. *)
Theorem no_key_gives_placeholders (RT : Runtime) :
  JS.truthy_ostr GOOGLE_MAPS_API_KEY = false ->
  (forall reference width height,
     getPlacePhotoUrl reference width height = "/placeholder.svg") /\
  (forall photos, getBestRestaurantImage photos = "/placeholder.svg") /\
  (forall photos, getRestaurantImages photos = placeholders) /\
  (forall photos size, getRestaurantImageWithFallback photos size = "/placeholder.svg").
Proof.
  intros K. split; [|split; [|split]].
  - intros. now apply getPlacePhotoUrl_no_key.
  - intros. now apply getBestRestaurantImage_no_key.
  - intros photos. unfold getRestaurantImages.
    destruct photos as [[|photo rest]|]; try reflexivity.
    destruct (negb _); [reflexivity|].
    now rewrite !getPlacePhotoUrl_no_key.
  - intros photos size. unfold getRestaurantImageWithFallback.
    destruct photos as [[|photo rest]|]; try reflexivity.
    destruct (negb _); [reflexivity|]. now apply getPlacePhotoUrl_no_key.
Qed.

(** X11, witness: the sample runtime without its key. *)
Lemma no_key_gives_placeholders_witness :
  @getBestRestaurantImage Sample2.noKey (Some [Sample.photo "a" 800 600])
    = "/placeholder.svg" /\
  @getRestaurantImages Sample2.noKey (Some [Sample.photo "a" 800 600]) = placeholders.
Proof.
  destruct (no_key_gives_placeholders Sample2.noKey eq_refl) as [_ [best [all _]]].
  split; [apply best | apply all].
Defined.

(** X12. [getRestaurantImageWithFallback] and [getRestaurantImages] agree:
    for each size the former gives the field of the latter that the size
    names; and both look at the first photo only, whatever follows it. *)
Theorem image_sizes_agree (RT : Runtime) (photos : option (list Photo.t)) :
  (forall size,
     getRestaurantImageWithFallback photos size
       = imageOfSize (getRestaurantImages photos) size) /\
  (forall first rest,
     photos = Some (first :: rest) ->
     getRestaurantImages photos = getRestaurantImages (Some [first])).
Proof.
  split.
  - intros size. unfold getRestaurantImageWithFallback, getRestaurantImages.
    destruct photos as [[|photo rest]|]; try (now destruct size).
    destruct (negb _); now destruct size.
  - now intros first rest ->.
Qed.

(** ** Cuisine labels *)

(** X13. The vocabulary of [mapCuisineType] is closed: when no tag names a
    member of [Object.prototype], the result is a label, and that label is
    one of the sixteen of the table (of which ["Restaurant"], the default, is
    one). *)
Theorem mapCuisineType_closed_vocabulary (types : list string) :
  (forall t, In t types -> existsb (String.eqb t) Object_prototype_keys = false) ->
  exists label,
    mapCuisineType types = Label label /\ In label (map snd cuisineMap).
Proof.
  induction types as [|type types IH]; intros H; cbn [mapCuisineType].
  - exists "Restaurant". split; [reflexivity|]. cbn. tauto.
  - unfold cuisineMap_get.
    destruct (own_property type cuisineMap) as [label|] eqn:O.
    + cbn [truthy_property]. rewrite (cuisineMap_label_truthy type label O).
      exists label. split; [reflexivity|].
      apply own_property_In in O. exact (in_map snd _ _ O).
    + rewrite (H type (or_introl eq_refl)). apply IH.
      intros t Ht. apply H. now right.
Qed.

(** X13, witness: tags of a legacy result. *)
Lemma mapCuisineType_closed_vocabulary_witness :
  exists label,
    mapCuisineType ["point_of_interest"; "bar"; "restaurant"] = Label label /\
    In label (map snd cuisineMap).
Proof.
  apply mapCuisineType_closed_vocabulary.
  intros t [<-|[<-|[<-|[]]]]; reflexivity.
Defined.

(** ** Enrichment of one entity and of a batch *)

Section EnrichmentMore.
Context {RT : Runtime}.
Variable G : GoogleSDK.

Lemma with_image_same restaurant :
  Restaurant.with_image restaurant (Restaurant.image restaurant) = restaurant.
Proof. now destruct restaurant. Qed.

(** How [enhanceRestaurantWithPhotos] ends is decided by the entity and by
    how the fetch of its details ends. *)
Lemma enhance_by_details restaurant s :
  fst (enhanceRestaurantWithPhotos G restaurant s) =
    if negb (String.eqb (Restaurant.image restaurant) "/placeholder.svg")
    then Resolved restaurant
    else
      match fst (getPlaceDetails G (Restaurant.id restaurant) s) with
      | Resolved details =>
          match RestaurantDetails.photos details with
          | Some (photo :: photos) =>
              Resolved (Restaurant.with_image restaurant
                          (getBestRestaurantImage (Some (photo :: photos))))
          | _ => Resolved restaurant
          end
      | Rejected _ => Resolved restaurant
      | Pending => Pending
      end.
Proof.
  unfold enhanceRestaurantWithPhotos.
  destruct (negb _); [reflexivity|]. unfold_async.
  destruct (getPlaceDetails G (Restaurant.id restaurant) s) as [[details|e|] s1];
    cbn [fst]; try reflexivity.
  now destruct (RestaurantDetails.photos details) as [[|photo photos]|].
Qed.

Lemma enhance_never_rejects restaurant s e :
  fst (enhanceRestaurantWithPhotos G restaurant s) <> Rejected e.
Proof.
  rewrite enhance_by_details. destruct (negb _); [discriminate|].
  destruct (fst (getPlaceDetails G (Restaurant.id restaurant) s)) as [details|e'|];
    try discriminate.
  destruct (RestaurantDetails.photos details) as [[|photo photos]|]; discriminate.
Qed.

Lemma enhanceAll_never_rejects restaurants : forall s e,
  fst (enhanceRestaurantsWithPhotos G restaurants s) <> Rejected e.
Proof.
  induction restaurants as [|r rest IH]; intros s e;
    cbn [enhanceRestaurantsWithPhotos]; [discriminate|].
  pose proof (enhance_never_rejects r s) as N.
  destruct (enhanceRestaurantWithPhotos G r s) as [o s1]. cbn [fst] in N.
  pose proof (IH s1) as N1.
  destruct (enhanceRestaurantsWithPhotos G rest s1) as [os s2]. cbn [fst] in *.
  destruct o as [x|e'|]; [|now contradiction (N e')|];
    (destruct os as [xs|e'|]; [|now contradiction (N1 e')|]); discriminate.
Qed.

Lemma enhanceAll_length restaurants : forall s enhanced,
  fst (enhanceRestaurantsWithPhotos G restaurants s) = Resolved enhanced ->
  List.length enhanced = List.length restaurants.
Proof.
  induction restaurants as [|r rest IH]; intros s enhanced;
    cbn [enhanceRestaurantsWithPhotos].
  - now intros [= <-].
  - destruct (enhanceRestaurantWithPhotos G r s) as [o s1].
    pose proof (IH s1) as L.
    destruct (enhanceRestaurantsWithPhotos G rest s1) as [os s2]. cbn [fst] in *.
    destruct o as [x|e'|], os as [xs|e''|]; try discriminate.
    intros [= <-]. cbn [List.length]. now rewrite (L xs eq_refl).
Qed.

(** A search that resolves found the SDK available. *)
Lemma resolved_available {A} (k : unit -> Async A) s a :
  fst (bind (initializeGoogleMapsService G) k s) = Resolved a ->
  sdkAvailable G = true.
Proof.
  destruct (sdkAvailable G) eqn:U; [reflexivity|].
  unfold bind. rewrite (initialize_unavailable G s U). unfold failedInitialization.
  destruct (JS.truthy_ostr GOOGLE_MAPS_API_KEY); cbn [negb]; [|discriminate].
  destruct (scriptTag s); [discriminate|]. destruct (scriptLoad G); discriminate.
Qed.

Section Available.
Hypothesis available : sdkAvailable G = true.

(** With the SDK available the outcome of [getPlaceDetails] does not depend
    on the store. *)
Lemma getPlaceDetails_outcome placeId s t :
  fst (getPlaceDetails G placeId s) = fst (getPlaceDetails G placeId t).
Proof.
  unfold getPlaceDetails. unfold_async.
  destruct (initialize_available G s available) as [s1 [Es _]].
  destruct (initialize_available G t available) as [t1 [Et _]].
  rewrite Es, Et.
  destruct (getDetails G placeId) as [place status].
  destruct (Place_fetchFields G) as [f|];
    [destruct (f placeId) as [e|place']|];
    try reflexivity; now destruct (String.eqb status Status_OK).
Qed.

(** Nor does the outcome of [enhanceRestaurantWithPhotos]. *)
Lemma enhance_outcome restaurant s t :
  fst (enhanceRestaurantWithPhotos G restaurant s)
    = fst (enhanceRestaurantWithPhotos G restaurant t).
Proof.
  rewrite !enhance_by_details.
  now rewrite (getPlaceDetails_outcome (Restaurant.id restaurant) s t).
Qed.

Lemma enhance_resolves restaurant s :
  exists enhanced, fst (enhanceRestaurantWithPhotos G restaurant s) = Resolved enhanced.
Proof.
  destruct (enhance_cases G restaurant s)
    as [[_ E]|[_ [[d [t [p [ps [_ [_ E]]]]]]|[[t E]|[t [D E]]]]]];
    try (rewrite E; cbn [fst]; eauto).
  apply getPlaceDetails_pending in D. congruence.
Qed.

(** The batch resolves with one enhanced entity per entity, in order. *)
Lemma enhanceAll_resolves restaurants : forall s,
  exists enhanced,
    fst (enhanceRestaurantsWithPhotos G restaurants s) = Resolved enhanced /\
    Forall2 (fun r e => forall t, fst (enhanceRestaurantWithPhotos G r t) = Resolved e)
      restaurants enhanced.
Proof.
  induction restaurants as [|r rest IH]; intros s; cbn [enhanceRestaurantsWithPhotos].
  - exists []. split; [reflexivity | constructor].
  - destruct (enhance_resolves r s) as [e E].
    destruct (enhanceRestaurantWithPhotos G r s) as [o s1] eqn:Run.
    cbn [fst] in E. subst o.
    destruct (IH s1) as [es [Es F]].
    destruct (enhanceRestaurantsWithPhotos G rest s1) as [o s2].
    cbn [fst] in Es. subst o.
    exists (e :: es). split; [reflexivity|]. constructor; [|exact F].
    intros t. now rewrite (enhance_outcome r t s), Run.
Qed.

End Available.

End EnrichmentMore.

(** X14. Enrichment is idempotent as far as the provider is: when
    [enhanceRestaurantWithPhotos] resolved with an entity, that entity is
    resolved with again, unchanged, when it is enhanced once more and the
    fetch of its details ends as it did the first time, whatever the provider
    and the store of the second run. When the entity it resolved with has an
    image that is not the placeholder, the second run fetches nothing and
    needs no such condition. (A provider that fails and then answers can give
    a different entity the second time: the first run then left the
    placeholder.) *)
Theorem enhance_idempotent (RT : Runtime) (G : GoogleSDK)
    (restaurant enhanced : Restaurant.t) (s : Store) :
  fst (enhanceRestaurantWithPhotos G restaurant s) = Resolved enhanced ->
  (Restaurant.image enhanced <> "/placeholder.svg" ->
   forall G' t, enhanceRestaurantWithPhotos G' enhanced t = (Resolved enhanced, t)) /\
  (forall G' t,
     fst (getPlaceDetails G' (Restaurant.id restaurant) t)
       = fst (getPlaceDetails G (Restaurant.id restaurant) s) ->
     fst (enhanceRestaurantWithPhotos G' enhanced t) = Resolved enhanced).
Proof.
  intros H. split.
  - intros N G' t. destruct (enhance_cases G' enhanced t) as [[_ E]|[P _]];
      [exact E | contradiction].
  - intros G' t D. rewrite enhance_by_details in H.
    destruct (String.eqb (Restaurant.image restaurant) "/placeholder.svg") eqn:P;
      cbn [negb] in H.
    + apply String.eqb_eq in P.
      assert (Restaurant.id enhanced = Restaurant.id restaurant /\
              (Restaurant.image enhanced = "/placeholder.svg" -> enhanced = restaurant))
        as [I Same].
      { destruct (fst (getPlaceDetails G (Restaurant.id restaurant) s))
          as [details|e|]; try discriminate.
        - destruct (RestaurantDetails.photos details) as [[|photo photos]|];
            injection H as <-; (split; [reflexivity|]); try reflexivity.
          cbn [Restaurant.with_image Restaurant.image]. intros U.
          now rewrite U, <- P, with_image_same.
        - injection H as <-. now split. }
      rewrite enhance_by_details.
      destruct (String.eqb (Restaurant.image enhanced) "/placeholder.svg") eqn:Q;
        cbn [negb]; [|reflexivity].
      apply String.eqb_eq in Q. rewrite (Same Q) in *. now rewrite D.
    + injection H as <-. rewrite enhance_by_details. now rewrite P.
Qed.

(** X14, witness: the sample restaurant, enhanced twice by the same
    provider. *)
Lemma enhance_idempotent_witness :
  let once := Restaurant.with_image Sample.unenriched
                "https://places.googleapis.com/v1/places/p1/photos/x/media?maxWidthPx=800&maxHeightPx=600&key=KEY" in
  fst (@enhanceRestaurantWithPhotos Sample.runtime Sample.withDetails once Sample.store0)
    = Resolved once.
Proof.
  exact (proj2 (enhance_idempotent Sample.runtime Sample.withDetails Sample.unenriched _
                  Sample.store0 eq_refl)
           Sample.withDetails Sample.store0 eq_refl).
Defined.

(** X15. [enhanceRestaurantsWithPhotos] never rejects, and what it resolves
    with has as many entities as it was given. With the SDK available it
    does resolve, with the entities in the same order, each the one that
    [enhanceRestaurantWithPhotos] resolves with for the entity at its place,
    whatever the store that call starts from. (Without the SDK the fetch for
    an entity with the placeholder image may never settle, and the batch with
    it.) *)
Theorem enhanceAll_resolves_in_order (RT : Runtime) (G : GoogleSDK)
    (restaurants : list Restaurant.t) (s : Store) :
  match fst (enhanceRestaurantsWithPhotos G restaurants s) with
  | Resolved enhanced =>
      List.length enhanced = List.length restaurants /\
      (sdkAvailable G = true ->
       Forall2 (fun r e => forall t, fst (enhanceRestaurantWithPhotos G r t) = Resolved e)
         restaurants enhanced)
  | Rejected _ => False
  | Pending => sdkAvailable G = false
  end.
Proof.
  pose proof (enhanceAll_never_rejects G restaurants s) as N.
  pose proof (enhanceAll_length G restaurants s) as L.
  destruct (sdkAvailable G) eqn:A.
  - destruct (enhanceAll_resolves G A restaurants s) as [enhanced [E F]].
    rewrite E in *. split; [now apply L | intros _; exact F].
  - destruct (fst (enhanceRestaurantsWithPhotos G restaurants s)) as [enhanced|e|].
    + split; [now apply L | discriminate].
    + now contradiction (N e).
    + reflexivity.
Qed.

(** X16. A failure of the detail fetch is recovered and logged: when
    [getPlaceDetails] rejects for an entity with the placeholder image, the
    entity comes back as it was, and the only trace besides that of the fetch
    is a warning that names the entity and carries the error. *)
Theorem enhance_failure_is_logged (RT : Runtime) (G : GoogleSDK)
    (restaurant : Restaurant.t) (s s1 : Store) (e : Exn) :
  Restaurant.image restaurant = "/placeholder.svg" ->
  getPlaceDetails G (Restaurant.id restaurant) s = (Rejected e, s1) ->
  enhanceRestaurantWithPhotos G restaurant s =
    (Resolved restaurant,
     {| mapInstance := mapInstance s1;
        scriptTag := scriptTag s1;
        trace := trace s1 ++
                 [ConsoleWarn ("Failed to enhance restaurant "
                               ++ Restaurant.name restaurant ++ " with photos:") e] |}).
Proof.
  intros P D. unfold enhanceRestaurantWithPhotos. rewrite P.
  cbn [String.eqb Ascii.eqb Bool.eqb negb]. unfold_async. now rewrite D.
Qed.

(** X16, witness: the script of the SDK errors. *)
Lemma enhance_failure_is_logged_witness :
  @enhanceRestaurantWithPhotos Sample.runtime Sample.notLoaded Sample.unenriched
    Sample.store0 =
    (Resolved Sample.unenriched,
     {| mapInstance := false;
        scriptTag := true;
        trace := [ConsoleWarn "Failed to enhance restaurant Cafe with photos:"
                    (Error "Google Maps API failed to load")] |}).
Proof.
  exact (enhance_failure_is_logged Sample.runtime Sample.notLoaded Sample.unenriched
           Sample.store0 {| mapInstance := false; scriptTag := true; trace := [] |}
           _ eq_refl eq_refl).
Defined.

(** ** Geocoding of a query *)

Section GeocodingMore.
Context {RT : Runtime}.
Variable G : GoogleSDK.


End GeocodingMore.



(** ** Trimming *)

(** A string that is not blank keeps a character that is not white space
    when it is trimmed. *)
Lemma trimStart_not_blank query :
  blank query = false ->
  exists c r, JS.trimStart query = String c r /\ JS.is_space c = false.
Proof.
  induction query as [|c r IH]; cbn [blank JS.trimStart]; [discriminate|].
  destruct (JS.is_space c) eqn:S; cbn [andb]; [exact IH|].
  intros _. now exists c, r.
Qed.

Lemma trim_not_blank query :
  blank query = false -> JS.truthy_str (JS.trim query) = true.
Proof.
  intros B. destruct (trimStart_not_blank query B) as [c [r [E S]]].
  unfold JS.trim. rewrite E. cbn [JS.trimEnd]. rewrite S.
  now destruct (JS.trimEnd r).
Qed.

(** X18. [searchLocations] of the hook, given a query that is not blank,
    ends, whatever the state before, with the loading flag down and the
    locations found and no error when [searchLocationsByText] resolves, and
    with the loading flag down, no location and an error message when it
    rejects. While the adapter stays pending the flag stays up, with the
    error cleared and the results of before. The store is the one the adapter
    leaves. *)
Theorem searchLocations_settles (RT : Runtime) (G : GoogleSDK) (query : string)
    (h : LocationSearch) (s : Store) :
  blank query = false ->
  let run := searchLocations G query h s in
  match fst (searchLocationsByText G query s) with
  | Resolved locations =>
      loading (fst run) = false /\
      results (fst run) = locations /\ error (fst run) = None
  | Rejected err =>
      loading (fst run) = false /\
      results (fst run) = [] /\
      error (fst run) = Some (Hook.messageOf err "Failed to search locations")
  | Pending =>
      loading (fst run) = true /\
      results (fst run) = results h /\ error (fst run) = None
  end /\
  snd run = snd (searchLocationsByText G query s).
Proof.
  intros B. cbv zeta. unfold searchLocations.
  rewrite (trim_not_blank query B). cbn [negb].
  destruct (searchLocationsByText G query s) as [[locations|err|] s1];
    cbn [fst snd]; repeat split.
Qed.

(** X18, witness: a query the geocoder finds nothing for. *)
Lemma searchLocations_settles_witness :
  let run := @searchLocations Sample.runtime (Sample2.geocoder "ZERO_RESULTS" [])
               "nowhere"
               {| results := []; loading := true; error := Some "earlier" |}
               Sample.store0 in
  (loading (fst run) = false /\ results (fst run) = [] /\ error (fst run) = None) /\
  snd run = snd (@searchLocationsByText Sample.runtime
                   (Sample2.geocoder "ZERO_RESULTS" []) "nowhere" Sample.store0).
Proof.
  exact (searchLocations_settles Sample.runtime (Sample2.geocoder "ZERO_RESULTS" [])
           "nowhere"
           {| results := []; loading := true; error := Some "earlier" |}
           Sample.store0 eq_refl).
Defined.

(** ** The hooks *)

(** X19. [getAddressFromCoordinates] never rejects. When [reverseGeocode]
    resolves it returns that address, with the loading flag down and no
    error; when [reverseGeocode] rejects it returns the coordinates with four
    decimals, with the loading flag down and the error set to the message;
    when [reverseGeocode] never settles it never returns, and the loading
    flag stays up. With the SDK available it does return, without an error:
    the formatted address of the first result when the geocoder answers [OK]
    with a result, and the coordinates with four decimals otherwise. *)
Theorem getAddressFromCoordinates_never_rejects (RT : Runtime) (G : GoogleSDK)
    (lat lng : float) (s : Store) (h : Hook.State unit) :
  let '(returned, updates, _) := getAddressFromCoordinates G lat lng s in
  let coordinates :=
    JS.toFixed Number_toString lat 4 ++ ", " ++ JS.toFixed Number_toString lng 4 in
  match fst (reverseGeocode G lat lng s) with
  | Resolved address =>
      returned = Resolved address /\
      Hook.loading (Hook.after h updates) = false /\
      Hook.error (Hook.after h updates) = None
  | Rejected err =>
      returned = Resolved coordinates /\
      Hook.loading (Hook.after h updates) = false /\
      Hook.error (Hook.after h updates)
        = Some (Hook.messageOf err "Failed to get address")
  | Pending =>
      returned = Pending /\
      Hook.loading (Hook.after h updates) = true /\
      Hook.error (Hook.after h updates) = None
  end /\
  (sdkAvailable G = true ->
   Hook.error (Hook.after h updates) = None /\
   match geocode_location G {| lat := lat; lng := lng |} with
   | (first :: _, status) =>
       returned =
         Resolved (if String.eqb status Status_OK
                   then GeocoderResult.formatted_address first
                   else coordinates)
   | ([], _) => returned = Resolved coordinates
   end).
Proof.
  unfold getAddressFromCoordinates.
  destruct (reverseGeocode G lat lng s) as [o s1] eqn:Run.
  assert (fst (reverseGeocode G lat lng s) = o) as O by now rewrite Run.
  destruct o as [address|err|]; cbv zeta; cbn [fst];
    (split; [cbn; repeat split|]); intros A;
    destruct (geocode_location G {| lat := lat; lng := lng |}) as [found status] eqn:Q;
    rewrite (reverseGeocode_available G lat lng s found status A Q) in O;
    destruct (String.eqb status Status_OK); destruct found as [|first rest];
    cbn in *; try discriminate; injection O as <-; now split.
Qed.

Section HooksMore.
Context {RT : Runtime}.
Variable G : GoogleSDK.

(** With the SDK available the batch resolves, so what follows it in a hook
    is not skipped. *)
Lemma enhanceAll_run restaurants s :
  sdkAvailable G = true ->
  exists enhanced s',
    enhanceRestaurantsWithPhotos G restaurants s = (Resolved enhanced, s') /\
    List.length enhanced = List.length restaurants /\
    Forall2 (fun r e => forall t, fst (enhanceRestaurantWithPhotos G r t) = Resolved e)
      restaurants enhanced.
Proof.
  intros A. destruct (enhanceAll_resolves G A restaurants s) as [enhanced [E F]].
  destruct (enhanceRestaurantsWithPhotos G restaurants s) as [o s'].
  cbn [fst] in E. subst o. exists enhanced, s'. repeat split; [|exact F].
  symmetry. exact (Forall2_length F).
Qed.

End HooksMore.

(** X20. [searchRestaurants] shows the entities in two steps or not at all:
    when the nearby search resolves, the data is set to its entities and then
    to their enhancements, as many and in the same order, and the error stays
    cleared; when it rejects, the error is set to the message and the data to
    the empty sequence. The [catch] block is never entered after the first
    entities were shown, and the loading flag is lowered last. When the
    search never settles, the loading flag was raised and the error cleared,
    and nothing follows. *)
Theorem searchRestaurants_progressive (RT : Runtime) (G : GoogleSDK)
    (userLocation : UserLocation.t) (searchRadius : float) (type : string) (s : Store) :
  let updates := fst (searchRestaurants G userLocation searchRadius type s) in
  match fst (searchNearbyRestaurants G userLocation searchRadius type s) with
  | Resolved basic =>
      exists enhanced,
        updates = [Hook.SetLoading true; Hook.SetError None; Hook.SetData basic;
                   Hook.SetData enhanced; Hook.SetLoading false] /\
        List.length enhanced = List.length basic /\
        Forall2 (fun r e => forall t, fst (enhanceRestaurantWithPhotos G r t) = Resolved e)
          basic enhanced
  | Rejected err =>
      updates = [Hook.SetLoading true; Hook.SetError None;
                 Hook.SetError (Some (Hook.messageOf err "Failed to fetch restaurants"));
                 Hook.SetData []; Hook.SetLoading false]
  | Pending => updates = [Hook.SetLoading true; Hook.SetError None]
  end.
Proof.
  cbv zeta. unfold searchRestaurants.
  destruct (searchNearbyRestaurants G userLocation searchRadius type s)
    as [[basic|err|] s1] eqn:Run; cbn [fst]; [|reflexivity|reflexivity].
  assert (sdkAvailable G = true) as A.
  { apply (f_equal fst) in Run. cbn [fst] in Run.
    exact (resolved_available G _ s basic Run). }
  destruct (enhanceAll_run G basic s1 A) as [enhanced [s2 [E [Len F]]]].
  rewrite E. now exists enhanced.
Qed.

(** X21. [searchPlaces] does nothing but empty the data for a blank query:
    the store is as it was, so no request was issued. For any other query it
    proceeds as [searchRestaurants] does, over the text search. *)
Theorem searchPlaces_guarded (RT : Runtime) (G : GoogleSDK) (query : string)
    (location : option UserLocation.t) (radius : option float) (s : Store) :
  let run := searchPlaces G query location radius s in
  if blank query then run = ([Hook.SetData []], s)
  else
    match fst (searchPlacesByText G query location radius s) with
    | Resolved basic =>
        exists enhanced,
          fst run = [Hook.SetLoading true; Hook.SetError None; Hook.SetData basic;
                     Hook.SetData enhanced; Hook.SetLoading false] /\
          List.length enhanced = List.length basic /\
          Forall2 (fun r e => forall t, fst (enhanceRestaurantWithPhotos G r t) = Resolved e)
            basic enhanced
    | Rejected err =>
        fst run = [Hook.SetLoading true; Hook.SetError None;
                   Hook.SetError (Some (Hook.messageOf err "Failed to search places"));
                   Hook.SetData []; Hook.SetLoading false]
    | Pending => fst run = [Hook.SetLoading true; Hook.SetError None]
    end.
Proof.
  cbv zeta. unfold searchPlaces. destruct (blank query) eqn:B.
  - now rewrite (trim_blank query B).
  - rewrite (trim_not_blank query B). cbn [negb].
    destruct (searchPlacesByText G query location radius s)
      as [[basic|err|] s1] eqn:Run; cbn [fst]; [|reflexivity|reflexivity].
    assert (sdkAvailable G = true) as A.
    { apply (f_equal fst) in Run. cbn [fst] in Run.
      exact (resolved_available G _ s basic Run). }
    destruct (enhanceAll_run G basic s1 A) as [enhanced [s2 [E [Len F]]]].
    rewrite E. now exists enhanced.
Qed.

(** X22. The promise of [fetchPlaceDetails] is never rejected. It is
    fulfilled with the details exactly when [getPlaceDetails] resolves with
    them, and with [null] exactly when an error is left set; the loading flag
    is down at the end either way. It stays pending, with the loading flag
    up, exactly when [getPlaceDetails] does. *)
Theorem fetchPlaceDetails_null_iff_error (RT : Runtime) (G : GoogleSDK)
    (placeId : option string) (s : Store) (h : Hook.State unit) :
  let '(returned, updates, _) := fetchPlaceDetails G placeId s in
  (Hook.loading (Hook.after h updates) = false <-> returned <> Pending) /\
  (returned = Resolved None <-> Hook.error (Hook.after h updates) <> None) /\
  (forall details,
     returned = Resolved (Some details) <->
     fst (getPlaceDetails G placeId s) = Resolved details) /\
  (returned = Pending <-> fst (getPlaceDetails G placeId s) = Pending) /\
  (forall e, returned <> Rejected e).
Proof.
  unfold fetchPlaceDetails.
  destruct (getPlaceDetails G placeId s) as [[details|err|] s1];
    cbn [Hook.after fold_left Hook.update Hook.loading Hook.error Hook.data fst];
    intuition congruence.
Qed.

(** ** The feed without the API key *)

Section NoKeyFeed.
Context {RT : Runtime}.
Variable G : GoogleSDK.
Hypothesis noKey : JS.truthy_ostr GOOGLE_MAPS_API_KEY = false.

(** The feed drops an entity with the placeholder image. *)
Lemma placeholder_is_not_valid r :
  Restaurant.image r = "/placeholder.svg" -> Feed.isValid r = false.
Proof.
  intros P. unfold Feed.isValid. cbv zeta. rewrite P.
  change (Feed.includes "/placeholder.svg" "placeholder") with true.
  cbn [negb]. now rewrite !andb_false_r.
Qed.

Lemma validRestaurants_placeholders restaurants :
  Forall (fun r => Restaurant.image r = "/placeholder.svg") restaurants ->
  Feed.validRestaurants restaurants = [].
Proof.
  unfold Feed.validRestaurants.
  induction 1 as [|r rest P _ IH]; cbn [filter]; [reflexivity|].
  now rewrite (placeholder_is_not_valid r P).
Qed.

Lemma searchNearby_no_key location radius type s restaurants :
  fst (searchNearbyRestaurants G location radius type s) = Resolved restaurants ->
  Forall (fun r => Restaurant.image r = "/placeholder.svg") restaurants.
Proof.
  intros H. apply searchNearby_provenance in H.
  eapply Forall_impl; [|exact H]. intros r [[place P]|[place ->]].
  - unfold restaurantOfNearbyPlace in P. destruct (Place.location place); [|discriminate].
    injection P as <-. apply (getBestRestaurantImage_no_key noKey).
  - apply (getBestRestaurantImage_no_key noKey).
Qed.

Lemma searchByText_no_key query location radius s restaurants :
  fst (searchPlacesByText G query location radius s) = Resolved restaurants ->
  Forall (fun r => Restaurant.image r = "/placeholder.svg") restaurants.
Proof.
  intros H. apply searchByText_provenance in H.
  eapply Forall_impl; [|exact H]. intros r [[place P]|[place ->]].
  - unfold restaurantOfTextPlace in P. destruct (Place.location place); [|discriminate].
    injection P as <-. apply (getBestRestaurantImage_no_key noKey).
  - apply (getBestRestaurantImage_no_key noKey).
Qed.

Lemma enhance_no_key r s e :
  Restaurant.image r = "/placeholder.svg" ->
  fst (enhanceRestaurantWithPhotos G r s) = Resolved e ->
  Restaurant.image e = "/placeholder.svg".
Proof.
  intros P H.
  destruct (enhance_cases G r s)
    as [[N E]|[_ [[d [s' [p [ps [D [Ph E]]]]]]|[[s' E]|[s' [D E]]]]]];
    rewrite E in H; cbn [fst] in H; try discriminate;
    injection H as <-; try exact P.
  apply (getBestRestaurantImage_no_key noKey).
Qed.

Lemma enhanceAll_no_key restaurants : forall s enhanced,
  Forall (fun r => Restaurant.image r = "/placeholder.svg") restaurants ->
  fst (enhanceRestaurantsWithPhotos G restaurants s) = Resolved enhanced ->
  Forall (fun r => Restaurant.image r = "/placeholder.svg") enhanced.
Proof.
  induction restaurants as [|r rest IH]; intros s enhanced P;
    cbn [enhanceRestaurantsWithPhotos].
  - intros [= <-]. constructor.
  - pose proof (enhance_no_key r s) as One.
    destruct (enhanceRestaurantWithPhotos G r s) as [o s1].
    pose proof (IH s1) as Others.
    destruct (enhanceRestaurantsWithPhotos G rest s1) as [os s2]. cbn [fst] in *.
    destruct o as [e|x|], os as [es|x'|]; try discriminate.
    intros [= <-]. constructor.
    + exact (One e (Forall_inv P) eq_refl).
    + exact (Others es (Forall_inv_tail P) eq_refl).
Qed.

End NoKeyFeed.

(** X23. Without the API key the feed is empty: every entity of a nearby
    search or of a text search has the placeholder image, the enrichment
    leaves it so, and the filter of the feed drops each of them, before and
    after the enrichment. *)
Theorem no_key_feed_is_empty (RT : Runtime) (G : GoogleSDK) (s : Store)
    (basic : list Restaurant.t) :
  JS.truthy_ostr GOOGLE_MAPS_API_KEY = false ->
  (exists location radius type,
     fst (searchNearbyRestaurants G location radius type s) = Resolved basic) \/
  (exists query location radius,
     fst (searchPlacesByText G query location radius s) = Resolved basic) ->
  Feed.validRestaurants basic = [] /\
  (forall t enhanced,
     fst (enhanceRestaurantsWithPhotos G basic t) = Resolved enhanced ->
     Feed.validRestaurants enhanced = []).
Proof.
  intros K H.
  assert (Forall (fun r => Restaurant.image r = "/placeholder.svg") basic) as P.
  { destruct H as [[location [radius [type H]]]|[query [location [radius H]]]].
    - exact (searchNearby_no_key G K _ _ _ _ _ H).
    - exact (searchByText_no_key G K _ _ _ _ _ H). }
  split; [now apply validRestaurants_placeholders|].
  intros t enhanced E.
  apply validRestaurants_placeholders. exact (enhanceAll_no_key G K basic t enhanced P E).
Qed.

(** X23, witness: a result with two photos, found without the key. *)
Lemma no_key_feed_is_empty_witness :
  Feed.validRestaurants
    [@restaurantOfNearbyResult Sample2.noKey Sample.toronto Sample2.withPhotos] = [].
Proof.
  exact (proj1 (no_key_feed_is_empty Sample2.noKey
                  (Sample.legacyOnly "OK" [Sample2.withPhotos]) Sample.store0 _ eq_refl
                  (or_introl (ex_intro _ Sample.toronto
                     (ex_intro _ 2000%float (ex_intro _ "restaurant" eq_refl)))))).
Defined.
